(** * The login endpoint of FKGoRestfulFramework

    A shallow embedding of [local/controller/loginController.go] (the
    [loginHandler] closure) and of [cmd/server/main.go] ([main] and
    [logDBQuery]), together with small models of the collaborators they
    call: the JSON codec, the request readers and the data writers of
    the router, the query builder, the table it reads and the scan of
    its rows into Go values, the logger and the response writer. The
    handler is a computation in a state monad over the log, the queries
    sent and the response; [main] is one over the events of the process.
    The collaborators are the packages the source imports, modelled
    after their documented behaviour as far as the handler and [main]
    use them. *)

From Stdlib Require Import ZArith NArith List String Ascii Lia DecimalString DecimalPos DecimalZ Sorted.
From stdpp Require Import base option list gmap strings.

Set Warnings "-register-all".

Local Open Scope string_scope.
Local Open Scope Z_scope.

(** ** Go values shared by every package *)

(** A Go [error] value; a nil error is [None] of [option error]. *)
Inductive error : Type :=
| errorString (msg : string).

#[global] Instance error_eq_dec : EqDecision error.
Proof. solve_decision. Defined.

(** ** encoding/json *)

Module json.

(** *** Encoding *)

(** The view [reflect] gives the encoder of the value it is handed: the
    kinds the handler's structs are built from, and two kinds the encoder
    rejects. A struct is the list of its exported fields, each under the
    name of its [json] tag, in declaration order. *)
Inductive Value : Type :=
| VInt (i : Z)
| VString (s : string)
| VStruct (fields : list (string * Value))
| VChan
| VFunc.

Definition hex : string := "0123456789abcdef".

Definition hexdigit (n : N) : ascii :=
  match String.get (N.to_nat n) hex with
  | Some c => c
  | None => "0"%char
  end.

(** [htmlSafeSet]: the ASCII bytes written as they are when HTML escaping
    is on (the default of [Marshal]). *)
Definition htmlSafe (b : N) : bool :=
  (32 <=? b)%N && (b <? 128)%N &&
  negb ((b =? 34)%N || (b =? 92)%N || (b =? 60)%N || (b =? 62)%N || (b =? 38)%N).

(** The escape of an ASCII byte outside [htmlSafeSet]. *)
Definition escapeByte (a : ascii) : string :=
  let b := N_of_ascii a in
  if ((b =? 92) || (b =? 34))%N then String "\" (String a "")
  else if (b =? 10)%N then "\n"
  else if (b =? 13)%N then "\r"
  else if (b =? 9)%N then "\t"
  else "\u00" ++ String (hexdigit (N.shiftr b 4)) (String (hexdigit (N.land b 15)) "").

(** [utf8.DecodeRuneInString]: the rune at the head of the string and its
    width, or [RuneError] of width 1 on bytes that are not UTF-8. *)
Inductive DecodedRune : Type :=
| RuneError1
| Rune (c : N) (size : nat).

Definition cont (a : ascii) (lo hi : N) : option N :=
  let b := N_of_ascii a in
  if ((lo <=? b) && (b <=? hi))%N then Some (N.land b 63) else None.

Definition DecodeRuneInString (s : string) : DecodedRune :=
  match s with
  | EmptyString => RuneError1
  | String a0 rest =>
    let b0 := N_of_ascii a0 in
    if (b0 <? 128)%N then Rune b0 1
    else if (b0 <? 194)%N then RuneError1
    else if (b0 <? 224)%N then
      match rest with
      | String a1 _ =>
        match cont a1 128 191 with
        | Some c1 => Rune (N.lor (N.shiftl (N.land b0 31) 6) c1) 2
        | None => RuneError1
        end
      | _ => RuneError1
      end
    else if (b0 <? 240)%N then
      let lo := if (b0 =? 224)%N then 160%N else 128%N in
      let hi := if (b0 =? 237)%N then 159%N else 191%N in
      match rest with
      | String a1 (String a2 _) =>
        match cont a1 lo hi, cont a2 128 191 with
        | Some c1, Some c2 =>
          Rune (N.lor (N.shiftl (N.land b0 15) 12) (N.lor (N.shiftl c1 6) c2)) 3
        | _, _ => RuneError1
        end
      | _ => RuneError1
      end
    else if (b0 <? 245)%N then
      let lo := if (b0 =? 240)%N then 144%N else 128%N in
      let hi := if (b0 =? 244)%N then 143%N else 191%N in
      match rest with
      | String a1 (String a2 (String a3 _)) =>
        match cont a1 lo hi, cont a2 128 191, cont a3 128 191 with
        | Some c1, Some c2, Some c3 =>
          Rune (N.lor (N.shiftl (N.land b0 7) 18)
                  (N.lor (N.shiftl c1 12) (N.lor (N.shiftl c2 6) c3))) 4
        | _, _, _ => RuneError1
        end
      | _ => RuneError1
      end
    else RuneError1
  end.

(** What the string encoder does with the bytes that follow the one it
    just looked at: look at the next one, or pass / drop the rest of a
    rune it has already decoded. *)
Inductive Pending : Type :=
| Look
| Pass (n : nat)
| Skip (n : nat).

Definition after (p : nat -> Pending) (size : nat) : Pending :=
  match size with
  | S (S k) => p (S k)
  | _ => Look
  end.

Definition step (p : Pending) : Pending :=
  match p with
  | Pass (S (S k)) => Pass (S k)
  | Skip (S (S k)) => Skip (S k)
  | _ => Look
  end.

(** The escape written for bytes that are not UTF-8. *)
Definition replacement : string := "\u" ++ "fffd".

(** [safeSet]: the ASCII bytes written as they are when HTML escaping
    is off. *)
Definition safe (b : N) : bool :=
  (32 <=? b)%N && (b <? 128)%N && negb ((b =? 34)%N || (b =? 92)%N).

(** The body of the encoder's string loop, between the two quotes, with
    HTML escaping on or off. *)
Fixpoint stringBody (escapeHTML : bool) (p : Pending) (src : string) : string :=
  match src with
  | EmptyString => EmptyString
  | String a rest =>
    match p with
    | Pass _ => String a (stringBody escapeHTML (step p) rest)
    | Skip _ => stringBody escapeHTML (step p) rest
    | Look =>
      let b := N_of_ascii a in
      if (b <? 128)%N then
        if htmlSafe b || (negb escapeHTML && safe b)
        then String a (stringBody escapeHTML Look rest)
        else escapeByte a ++ stringBody escapeHTML Look rest
      else
        match DecodeRuneInString src with
        | RuneError1 => replacement ++ stringBody escapeHTML Look rest
        | Rune c size =>
          if ((c =? 8232) || (c =? 8233))%N
          then "\u202" ++ String (hexdigit (N.land c 15))
                            (stringBody escapeHTML (after Skip size) rest)
          else String a (stringBody escapeHTML (after Pass size) rest)
        end
    end
  end.

Definition quote : string := String (ascii_of_N 34) "".

Definition newline : string := String (ascii_of_N 10) "".

(** A string as the encoder writes it. *)
Definition encodeStringWith (escapeHTML : bool) (s : string) : string :=
  quote ++ stringBody escapeHTML Look s ++ quote.

(** A string under [Marshal], which escapes HTML. *)
Definition encodeString (s : string) : string := encodeStringWith true s.

(** [Encoder.Encode] of a string after [SetEscapeHTML(false)]: the string
    as JSON and a newline. *)
Definition EncodeString (s : string) : string :=
  encodeStringWith false s ++ newline.

(** [strconv.AppendInt(b, i, 10)]. *)
Definition encodeInt (i : Z) : string :=
  NilZero.string_of_int (Z.to_int i).

Definition UnsupportedTypeError (kind : string) : error :=
  errorString ("json: unsupported type: " ++ kind).

(** The encoder proper: the text of a value, or the first error met. *)
Fixpoint encode (v : Value) : error + string :=
  match v with
  | VInt i => inr (encodeInt i)
  | VString s => inr (encodeString s)
  | VChan => inl (UnsupportedTypeError "chan")
  | VFunc => inl (UnsupportedTypeError "func")
  | VStruct fields =>
    let fix members (first : bool) (fs : list (string * Value)) : error + string :=
      match fs with
      | [] => inr ""
      | (name, fv) :: fs' =>
        match encode fv with
        | inl e => inl e
        | inr t =>
          match members false fs' with
          | inl e => inl e
          | inr ts =>
            inr ((if first then "" else ",") ++ quote ++ name ++ quote ++ ":" ++ t ++ ts)
          end
        end
      end in
    match members true fields with
    | inl e => inl e
    | inr ts => inr ("{" ++ ts ++ "}")
    end
  end.

(** [json.Marshal]: the bytes and a nil error, or no bytes and the error. *)
Definition Marshal (v : Value) : string * option error :=
  match encode v with
  | inr b => (b, None)
  | inl e => ("", Some e)
  end.

(** *** Decoding *)

(** A request body the scanner accepted, as the decoder walks it: object
    members in the order of the text, repeated keys kept. *)
Inductive JSON : Type :=
| JNull
| JBool (b : bool)
| JNumber (literal : string)
| JString (s : string)
| JArray (items : list JSON)
| JObject (members : list (string * JSON)).

Definition kind (j : JSON) : string :=
  match j with
  | JNull => "null"
  | JBool _ => "bool"
  | JNumber _ => "number"
  | JString _ => "string"
  | JArray _ => "array"
  | JObject _ => "object"
  end.

(** [UnmarshalTypeError]: a value that does not fit the Go type it is
    decoded into, at the top or in a field of a struct. *)
Definition UnmarshalTypeError (value goType : string) : error :=
  errorString ("json: cannot unmarshal " ++ value ++ " into Go value of type " ++ goType).

Definition UnmarshalFieldError (value structName field goType : string) : error :=
  errorString ("json: cannot unmarshal " ++ value ++ " into Go struct field "
               ++ structName ++ "." ++ field ++ " of type " ++ goType).

(** The case folding under which a key names a field when no field has
    exactly that name: ASCII letters fold to upper case, and so do the two
    letters outside ASCII whose fold is an ASCII letter, U+017F (bytes
    C5 BF, folds to S) and U+212A (bytes E2 84 AA, folds to K). *)
Fixpoint foldName (s : string) : string :=
  match s with
  | EmptyString => EmptyString
  | String a rest =>
    let b := N_of_ascii a in
    if ((97 <=? b) && (b <=? 122))%N
    then String (ascii_of_N (b - 32)) (foldName rest)
    else
      match rest with
      | String a1 rest1 =>
        if ((b =? 197) && (N_of_ascii a1 =? 191))%N
        then String "S" (foldName rest1)
        else
          match rest1 with
          | String a2 rest2 =>
            if ((b =? 226) && (N_of_ascii a1 =? 132) && (N_of_ascii a2 =? 170))%N
            then String "K" (foldName rest2)
            else String a (foldName rest)
          | EmptyString => String a (foldName rest)
          end
      | EmptyString => String a (foldName rest)
      end
  end.

(** A field of type string of a struct, as reflection shows it: the name
    of its [json] tag, its Go name, and the assignment to it. *)
Record Field (T : Type) : Type := mkField {
  name : string;
  goName : string;
  assign : T -> string -> T;
}.
Arguments mkField {T} name goName assign.
Arguments name {T} f.
Arguments goName {T} f.
Arguments assign {T} f.

(** A struct type: its name with and without the package, and its
    fields in the order of their declaration. *)
Record Shape (T : Type) : Type := mkShape {
  goType : string;
  structName : string;
  fields : list (Field T);
}.
Arguments mkShape {T} goType structName fields.
Arguments goType {T} s.
Arguments structName {T} s.
Arguments fields {T} s.

(** The field a key names: the one with exactly that name, else the first
    one with that name up to case. *)
Definition lookupField {T} (fields : list (Field T)) (key : string) : option (Field T) :=
  match find (fun f => String.eqb (name f) key) fields with
  | Some f => Some f
  | None => find (fun f => String.eqb (foldName (name f)) (foldName key)) fields
  end.

(** [saveError]: the first error is the one reported. *)
Definition saveError (saved : option error) (e : error) : option error :=
  match saved with
  | Some e0 => Some e0
  | None => Some e
  end.

(** The members of an object, in order, into the struct [v]. *)
Fixpoint object {T} (shape : Shape T) (members : list (string * JSON))
    (v : T) (saved : option error) : T * option error :=
  match members with
  | [] => (v, saved)
  | (key, jv) :: rest =>
    match lookupField (fields shape) key with
    | None => object shape rest v saved
    | Some f =>
      match jv with
      | JString s => object shape rest (assign f v s) saved
      | JNull => object shape rest v saved
      | _ =>
        object shape rest v
          (saveError saved
             (UnmarshalFieldError (kind jv) (structName shape) (name f) "string"))
      end
    end
  end.

(** [Decoder.Decode] of one value into a pointer to a struct. *)
Definition Decode {T} (shape : Shape T) (j : JSON) (v : T) : T * option error :=
  match j with
  | JNull => (v, None)
  | JObject members => object shape members v None
  | _ => (v, Some (UnmarshalTypeError (kind j) (goType shape)))
  end.

End json.

(** ** The table [loguser] *)

Module loguser.

(** A stored account: one row of the table the handler reads. The id is
    the key and is never NULL; a text column holds a string or NULL. *)
Record Row : Type := mkRow {
  id : Z;
  department : option string;
  purview : option string;
  logname : option string;
  logpassword : option string;
}.

End loguser.

(** ** github.com/go-ozzo/ozzo-dbx *)

Module dbx.

(** A value bound into a query or held by a column. *)
Inductive SQLValue : Type :=
| SQLNull
| SQLInt (i : Z)
| SQLText (s : string).

#[global] Instance SQLValue_eq_dec : EqDecision SQLValue.
Proof. solve_decision. Defined.

(** [dbx.HashExp]: a Go map from column names to the values they must
    equal, all of them at once; a nil value asks for NULL. *)
Abbreviation HashExp := (gmap string SQLValue).

(** [dbx.SelectQuery] as the builder leaves it. *)
Record SelectQuery : Type := mkSelectQuery {
  selects : list string;
  from : list string;
  where_ : option HashExp;
  orderBy : list string;
  limit : Z;
  offset : Z;
}.

(** [db.Select(cols...)]: a fresh query, limit and offset unset (-1). *)
Definition Select (cols : list string) : SelectQuery :=
  {| selects := cols; from := []; where_ := None; orderBy := [];
     limit := -1; offset := -1 |}.

Definition From (tables : list string) (q : SelectQuery) : SelectQuery :=
  {| selects := selects q; from := tables; where_ := where_ q;
     orderBy := orderBy q; limit := limit q; offset := offset q |}.

Definition Where (e : HashExp) (q : SelectQuery) : SelectQuery :=
  {| selects := selects q; from := from q; where_ := Some e;
     orderBy := orderBy q; limit := limit q; offset := offset q |}.

Definition OrderBy (cols : list string) (q : SelectQuery) : SelectQuery :=
  {| selects := selects q; from := from q; where_ := where_ q;
     orderBy := cols; limit := limit q; offset := offset q |}.

(** *** What the store answers *)

Definition columns : list string :=
  ["id"; "department"; "purview"; "logname"; "logpassword"].

Definition text (o : option string) : SQLValue :=
  match o with
  | Some s => SQLText s
  | None => SQLNull
  end.

Definition column (name : string) (r : loguser.Row) : option SQLValue :=
  if String.eqb name "id" then Some (SQLInt (loguser.id r))
  else if String.eqb name "department" then Some (text (loguser.department r))
  else if String.eqb name "purview" then Some (text (loguser.purview r))
  else if String.eqb name "logname" then Some (text (loguser.logname r))
  else if String.eqb name "logpassword" then Some (text (loguser.logpassword r))
  else None.

(** The collation of the text columns: when the store takes a stored
    string and a bound one for equal. *)
Definition Collation : Type := string -> string -> bool.

(** The collation that compares byte by byte. *)
Definition binary : Collation := String.eqb.

(** A stored value meets the value bound to its column: equal integers,
    strings equal under the collation, NULL only where nil was bound. *)
Definition meets (coll : Collation) (stored bound : SQLValue) : bool :=
  match bound, stored with
  | SQLNull, SQLNull => true
  | SQLInt x, SQLInt y => y =? x
  | SQLText s, SQLText t => coll t s
  | _, _ => false
  end.

(** The row passes the hash expression: every named column meets the
    value bound to it. *)
Definition satisfies (coll : Collation) (e : HashExp) (r : loguser.Row) : bool :=
  bool_decide
    (map_Forall (fun k v => match column k r with
                            | Some stored => meets coll stored v
                            | None => false
                            end = true) e).

Definition passes (coll : Collation) (w : option HashExp) (r : loguser.Row) : bool :=
  match w with
  | None => true
  | Some e => satisfies coll e r
  end.

(** The order of ORDER BY: NULL first, then integers, then strings. *)
Definition value_compare (a b : SQLValue) : comparison :=
  match a, b with
  | SQLNull, SQLNull => Eq
  | SQLNull, _ => Lt
  | _, SQLNull => Gt
  | SQLInt x, SQLInt y => Z.compare x y
  | SQLText s, SQLText t => String.compare s t
  | SQLInt _, SQLText _ => Lt
  | SQLText _, SQLInt _ => Gt
  end.

(** Rows compared column by column, in the order of ORDER BY. *)
Fixpoint row_compare (cols : list string) (r1 r2 : loguser.Row) : comparison :=
  match cols with
  | [] => Eq
  | c :: cols' =>
    match column c r1, column c r2 with
    | Some a, Some b =>
      match value_compare a b with
      | Eq => row_compare cols' r1 r2
      | o => o
      end
    | _, _ => row_compare cols' r1 r2
    end
  end.

Definition row_leb (cols : list string) (r1 r2 : loguser.Row) : bool :=
  match row_compare cols r1 r2 with
  | Gt => false
  | _ => true
  end.

Fixpoint place (cols : list string) (r : loguser.Row) (l : list loguser.Row) : list loguser.Row :=
  match l with
  | [] => [r]
  | x :: l' => if row_leb cols r x then r :: l else x :: place cols r l'
  end.

(** ORDER BY, ascending; rows equal on the columns keep their order. *)
Definition ordered (cols : list string) (l : list loguser.Row) : list loguser.Row :=
  foldr (place cols) [] l.

(** LIMIT and OFFSET; a negative one is not applied. *)
Definition window (lim off : Z) (l : list loguser.Row) : list loguser.Row :=
  let l1 := if off <? 0 then l else drop (Z.to_nat off) l in
  if lim <? 0 then l1 else take (Z.to_nat lim) l1.

Definition wellFormed (q : SelectQuery) : bool :=
  bool_decide (from q = ["loguser"])
  && bool_decide (Forall (fun c => c ∈ columns) (selects q))
  && bool_decide (Forall (fun c => c ∈ columns) (orderBy q))
  && match where_ q with
     | None => true
     | Some e => bool_decide (map_Forall (fun k _ => k ∈ columns) e)
     end.

(** The store: out of reach, with the error the driver reports, or
    serving the rows of [loguser] under the collation of its text
    columns. *)
Inductive Store : Type :=
| Unavailable (e : error)
| Serving (coll : Collation) (rows : list loguser.Row).

Definition SQLError : error := errorString "Error 1064: SQL syntax or unknown name".

(** The rows a query yields, before they are scanned into Go values. *)
Definition answer (s : Store) (q : SelectQuery) : error + list loguser.Row :=
  match s with
  | Unavailable e => inl e
  | Serving coll rows =>
    if wellFormed q
    then inr (window (limit q) (offset q)
                (ordered (orderBy q) (filter (fun r => passes coll (where_ q) r) rows)))
    else inl SQLError
  end.

End dbx.

(** ** pkg/log *)

Module log.

(** [c.Request.Context()]: the context of one request. *)
Inductive context : Type :=
| requestContext (id : string).

Inductive Level : Type :=
| LevelInfo
| LevelError.

(** A value logged under a key; [KSQL q] stands for the SQL text of [q]. *)
Inductive KeyValue : Type :=
| KInt (i : Z)
| KString (s : string)
| KSQL (q : dbx.SelectQuery).

(** A logger: the context and the key/value pairs [With] bound to it. *)
Record Logger : Type := mkLogger {
  ctx : option context;
  bound : list (string * KeyValue);
}.

Definition With (l : Logger) (c : option context) (kvs : list (string * KeyValue)) : Logger :=
  {| ctx := match c with Some x => Some x | None => ctx l end;
     bound := bound l ++ kvs |}.

(** One line of the log: who wrote it, at which level, and the format
    with its arguments as they were handed to [Errorf] or [Info]. *)
Record Entry : Type := mkEntry {
  by_ : Logger;
  level : Level;
  format : string;
  args : list (option error);
}.

Definition Errorf (l : Logger) (fmt : string) (a : list (option error)) : Entry :=
  {| by_ := l; level := LevelError; format := fmt; args := a |}.

Definition Info (l : Logger) (msg : string) : Entry :=
  {| by_ := l; level := LevelInfo; format := msg; args := [] |}.

End log.

(** ** net/http *)

Module http.

Definition StatusOK : Z := 200.

(** [http.ResponseWriter]: the status sent, if any was, and the data
    written after it, one entry for each write, as it was handed over. *)
Record ResponseWriter : Type := mkResponseWriter {
  status : option Z;
  written : list string;
}.

Definition fresh : ResponseWriter := {| status := None; written := [] |}.

(** The first call fixes the status; later ones are ignored. *)
Definition WriteHeader (code : Z) (w : ResponseWriter) : ResponseWriter :=
  match status w with
  | Some _ => w
  | None => {| status := Some code; written := written w |}
  end.

(** A write with no status sent yet sends [StatusOK] first. *)
Definition Write (data : string) (w : ResponseWriter) : ResponseWriter :=
  let w' := WriteHeader StatusOK w in
  {| status := status w'; written := written w' ++ [data] |}.

End http.

(** ** What a request does to the world *)

(** The lines logged, the queries sent to the store and the response, in
    the order the calls were made. *)
Record World : Type := mkWorld {
  logged : list log.Entry;
  issued : list dbx.SelectQuery;
  Response : http.ResponseWriter;
}.

Definition M (A : Type) : Type := World -> A * World.

#[global] Instance M_ret : MRet M := fun A (x : A) w => (x, w).
#[global] Instance M_bind : MBind M := fun A B (f : A -> M B) (m : M A) w =>
  let '(x, w') := m w in f x w'.

Definition emits (es : list log.Entry) : M unit := fun w =>
  (tt, {| logged := logged w ++ es; issued := issued w; Response := Response w |}).

Definition emit (e : log.Entry) : M unit := emits [e].

Definition send (q : dbx.SelectQuery) : M unit := fun w =>
  (tt, {| logged := logged w; issued := issued w ++ [q]; Response := Response w |}).

Definition respond (f : http.ResponseWriter -> http.ResponseWriter) : M unit := fun w =>
  (tt, {| logged := logged w; issued := issued w; Response := f (Response w) |}).

(** ** pkg/dbcontext and the query log of cmd/server/main.go *)

Module dbcontext.

(** [dbx.QueryLogFunc]: called after each query with the time it took,
    the query and the error; all it can do is log. *)
Definition QueryLogFunc : Type :=
  option log.context -> Z -> dbx.SelectQuery -> option error -> list log.Entry.

(** The handle the handler is given: the store behind it, the time its
    next query takes (milliseconds) and the log function installed. *)
Record DB : Type := mkDB {
  store : dbx.Store;
  elapsed : Z;
  queryLog : option QueryLogFunc;
}.

End dbcontext.

(** [logDBQuery] of main.go. *)
Definition logDBQuery (logger : log.Logger) : dbcontext.QueryLogFunc :=
  fun ctx t sql err =>
    match err with
    | None =>
      [log.Info (log.With logger ctx [("duration", log.KInt t); ("sql", log.KSQL sql)])
                "DB query successful"]
    | Some e =>
      [log.Errorf (log.With logger ctx [("sql", log.KSQL sql)]) "DB query error: %v" [Some e]]
    end.

(** The handle as [main] builds it: [db.QueryLogFunc = logDBQuery(logger)]. *)
Definition serverDB (logger : log.Logger) (s : dbx.Store) (t : Z) : dbcontext.DB :=
  {| dbcontext.store := s; dbcontext.elapsed := t;
     dbcontext.queryLog := Some (logDBQuery logger) |}.

(** ** github.com/go-ozzo/ozzo-routing *)

Module routing.

(** The request body as the JSON reader meets it: bytes the scanner
    rejects, with its error, or one JSON value. *)
Inductive Body : Type :=
| Malformed (e : error)
| Structured (j : json.JSON).

(** The request body as the XML reader meets it: bytes it rejects, or
    the elements under the root with their character data. *)
Inductive XMLBody : Type :=
| XMLMalformed (e : error)
| XMLElements (children : list (string * string)).

(** The readers [c.Read] chooses from, and the writers [c.Write] writes
    through: the one a context starts with and the one the content
    negotiator of main installs. *)
Inductive DataReader : Type :=
| FormDataReader
| JSONDataReader
| XMLDataReader.

Inductive DataWriter : Type :=
| DefaultDataWriter
| JSONDataWriter.

(** [routing.Context]: the request, with its body as each reader meets
    it and the form values parsed from it (the first value of each key);
    the data writer set for the response; and the fault of the
    connection the response goes out on, if it has one. *)
Record Context : Type := mkContext {
  Request_Context : log.context;
  Request_Method : string;
  Request_ContentType : string;
  Request_Body : Body;
  Request_XML : XMLBody;
  Request_Form : gmap string string;
  writer : DataWriter;
  fault : option error;
}.

(** [getContentType]: the header up to the first space or semicolon. *)
Fixpoint getContentType (t : string) : string :=
  match t with
  | EmptyString => EmptyString
  | String a rest =>
    if (Ascii.eqb a " " || Ascii.eqb a ";")%char then EmptyString
    else String a (getContentType rest)
  end.

(** [DataReaders]: the reader registered for a content type. *)
Definition DataReaders (t : string) : option DataReader :=
  if String.eqb t "application/x-www-form-urlencoded" then Some FormDataReader
  else if String.eqb t "multipart/form-data" then Some FormDataReader
  else if String.eqb t "application/json" then Some JSONDataReader
  else if String.eqb t "application/xml" then Some XMLDataReader
  else if String.eqb t "text/xml" then Some XMLDataReader
  else None.

(** The reader [c.Read] picks: by the content type unless the method is
    GET, and the form reader when there is none for it. *)
Definition reader (c : Context) : DataReader :=
  if String.eqb (Request_Method c) "GET" then FormDataReader
  else
    match DataReaders (getContentType (Request_ContentType c)) with
    | Some r => r
    | None => FormDataReader
    end.

(** [ReadFormData]: each field, in the order of the struct, takes the
    form value under its Go name, when there is one. *)
Fixpoint ReadFormData {T} (fields : list (json.Field T)) (form : gmap string string)
    (v : T) : T :=
  match fields with
  | [] => v
  | f :: fields' =>
    ReadFormData fields' form
      match form !! json.goName f with
      | Some value => json.assign f v value
      | None => v
      end
  end.

(** The XML reader: each element, in the order of the text, goes to the
    field with its Go name, when there is one. *)
Fixpoint ReadXML {T} (fields : list (json.Field T)) (children : list (string * string))
    (v : T) : T :=
  match children with
  | [] => v
  | (tag, chars) :: rest =>
    ReadXML fields rest
      match find (fun f => String.eqb (json.goName f) tag) fields with
      | Some f => json.assign f v chars
      | None => v
      end
  end.

(** [c.Read(&v)]; on an error [v] is of no use to the caller. *)
Definition Read {T} (c : Context) (shape : json.Shape T) (v : T) : T * option error :=
  match reader c with
  | JSONDataReader =>
    match Request_Body c with
    | Malformed e => (v, Some e)
    | Structured j => json.Decode shape j v
    end
  | XMLDataReader =>
    match Request_XML c with
    | XMLMalformed e => (v, Some e)
    | XMLElements children => (ReadXML (json.fields shape) children v, None)
    end
  | FormDataReader => (ReadFormData (json.fields shape) (Request_Form c) v, None)
  end.

(** What a data writer makes of a string handed to it: the default one
    writes its bytes, the JSON one encodes it as a JSON string. *)
Definition render (wr : DataWriter) (data : string) : string :=
  match wr with
  | DefaultDataWriter => data
  | JSONDataWriter => json.EncodeString data
  end.

(** [c.Write(data)]: one write of the data as the data writer renders
    it. A connection at fault takes nothing of it and reports its error,
    after the response writer has fixed the status for the write. *)
Definition Write (c : Context) (data : string) : M (option error) :=
  match fault c with
  | Some e => respond (http.WriteHeader http.StatusOK) ;; mret (Some e)
  | None => respond (http.Write (render (writer c) data)) ;; mret None
  end.

End routing.

(** ** local/controller/loginController.go *)

Module requestData.
Record t : Type := mk {
  LoginName : string;
  Password : string;
}.

(** The fields with their [json] tags. *)
Definition fields : list (json.Field t) :=
  [ json.mkField "loginname" "LoginName"
      (fun v s => {| LoginName := s; Password := Password v |});
    json.mkField "password" "Password"
      (fun v s => {| LoginName := LoginName v; Password := s |}) ].

Definition shape : json.Shape t :=
  json.mkShape "contoller.requestData" "requestData" fields.
End requestData.

Module responseData.
Record t : Type := mk {
  Id : Z;
  Department : string;
  Purview : string;
  Logname : string;
}.

Definition reflect (v : t) : json.Value :=
  json.VStruct [ ("id", json.VInt (Id v));
                 ("department", json.VString (Department v));
                 ("purview", json.VString (Purview v));
                 ("logname", json.VString (Logname v)) ].
End responseData.

Module DB_Login.
Record t : Type := mk {
  Id : Z;
  Department : string;
  Purview : string;
  Logname : string;
}.

(** The place of a column among the columns of the result. *)
Fixpoint position (tag : string) (cols : list string) : Z :=
  match cols with
  | [] => 0
  | col :: cols' => if String.eqb col tag then 0 else 1 + position tag cols'
  end.

(** The error of [Rows.Scan] for a column whose value the field cannot
    take: the index and the quoted name of the column, and the reason. *)
Definition ScanError (cols : list string) (tag reason : string) : error :=
  errorString ("sql: Scan error on column index "
               ++ NilZero.string_of_int (Z.to_int (position tag cols))
               ++ ", name " ++ json.quote ++ tag ++ json.quote ++ ": " ++ reason).

(** A Go [int] holds 64 bits. *)
Definition fitsInt (i : Z) : bool :=
  (- 2 ^ 63 <=? i) && (i <? 2 ^ 63).

(** The column under a [db] tag into a field of type int: zero when the
    column was not selected, an error when it holds NULL, a string or an
    integer no [int] holds. *)
Definition intColumn (cols : list string) (tag : string) (r : loguser.Row) : error + Z :=
  if bool_decide (tag ∈ cols)
  then
    match dbx.column tag r with
    | Some (dbx.SQLInt i) =>
      if fitsInt i then inr i
      else inl (ScanError cols tag
                  ("converting driver.Value type uint64 (" ++ json.quote
                   ++ NilZero.string_of_int (Z.to_int i) ++ json.quote
                   ++ ") to a int: value out of range"))
    | Some dbx.SQLNull => inl (ScanError cols tag "converting NULL to int is unsupported")
    | Some (dbx.SQLText s) =>
      inl (ScanError cols tag
             ("converting driver.Value type []uint8 (" ++ json.quote ++ s ++ json.quote
              ++ ") to a int: invalid syntax"))
    | None => inr 0
    end
  else inr 0.

(** The column under a [db] tag into a field of type string: empty when
    the column was not selected, an error when it holds NULL. *)
Definition textColumn (cols : list string) (tag : string) (r : loguser.Row)
    : error + string :=
  if bool_decide (tag ∈ cols)
  then
    match dbx.column tag r with
    | Some (dbx.SQLText s) => inr s
    | Some (dbx.SQLInt i) => inr (NilZero.string_of_int (Z.to_int i))
    | Some dbx.SQLNull => inl (ScanError cols tag "converting NULL to string is unsupported")
    | None => inr EmptyString
    end
  else inr EmptyString.

(** A row of the result into the struct, by the [db] tags, column after
    column; the first column that does not fit fails the scan. *)
Definition scan (cols : list string) (r : loguser.Row) : error + t :=
  match intColumn cols "id" r with
  | inl e => inl e
  | inr i =>
    match textColumn cols "department" r with
    | inl e => inl e
    | inr d =>
      match textColumn cols "purview" r with
      | inl e => inl e
      | inr p =>
        match textColumn cols "logname" r with
        | inl e => inl e
        | inr l => inr {| Id := i; Department := d; Purview := p; Logname := l |}
        end
      end
    end
  end.

(** The rows of an answer into the slice, in order, up to the first row
    whose scan fails. *)
Fixpoint scanAll (cols : list string) (rows : list loguser.Row) : list t * option error :=
  match rows with
  | [] => ([], None)
  | r :: rest =>
    match scan cols r with
    | inl e => ([], Some e)
    | inr u => let '(us, err) := scanAll cols rest in (u :: us, err)
    end
  end.
End DB_Login.

Module ErrorResponseData.
Record t : Type := mk {
  Error : string;
}.

Definition reflect (v : t) : json.Value :=
  json.VStruct [ ("error", json.VString (Error v)) ].
End ErrorResponseData.

(** [q.All(&users)]: the query goes to the store and the query log
    function is called with the error of its execution; then the rows
    are scanned into the slice, and the first scan that fails is the
    error. *)
Definition All (db : dbcontext.DB) (q : dbx.SelectQuery) : M (list DB_Login.t * option error) :=
  let res := dbx.answer (dbcontext.store db) q in
  let err := match res with inl e => Some e | inr _ => None end in
  send q ;;
  match dbcontext.queryLog db with
  | Some f => emits (f None (dbcontext.elapsed db) q err)
  | None => mret tt
  end ;;
  mret (match res with
        | inl e => ([], Some e)
        | inr rows => DB_Login.scanAll (dbx.selects q) rows
        end).

(** How a call of the handler ends: it returns, an error or nil, or the
    runtime stops it. *)
Inductive Result : Type :=
| Return (err : option error)
| Panic (msg : string).

(** The query of lines 47-50. *)
Definition loginQuery (rd : requestData.t) : dbx.SelectQuery :=
  dbx.OrderBy ["id"]
    (dbx.Where ({[ "logname" := dbx.SQLText (requestData.LoginName rd);
                   "logpassword" := dbx.SQLText (requestData.Password rd) ]} : dbx.HashExp)
      (dbx.From ["loguser"]
        (dbx.Select ["id"; "department"; "purview"; "logname"]))).

(** The closure [loginHandler(logger, db)] returns. *)
Definition loginHandler (logger : log.Logger) (db : dbcontext.DB)
    (c : routing.Context) : M Result :=
  let here := log.With logger (Some (routing.Request_Context c)) [] in
  let rd := {| requestData.LoginName := EmptyString; requestData.Password := EmptyString |} in
  let '(rd, err) := routing.Read c requestData.shape rd in
  match err with
  | Some e =>
    emit (log.Errorf here "invalid request: %v" [Some e]) ;;
    mret (Return (Some e))
  | None =>
    let q := loginQuery rd in
    '(users, err) ← All db q;
    match err with
    | Some e =>
      emit (log.Errorf here "database query error: %v" [Some e]) ;;
      mret (Return (Some e))
    | None =>
      let usersNum := Z.of_nat (length users) in
      if usersNum <=? 0 then
        emit (log.Errorf here "database query error: %v" [err]) ;;
        let rp := {| ErrorResponseData.Error := "Loginname or password not correct." |} in
        let '(b, err) := json.Marshal (ErrorResponseData.reflect rp) in
        match err with
        | Some e =>
          emit (log.Errorf here "response format to json error: %v" [Some e]) ;;
          mret (Return (Some e))
        | None =>
          r ← routing.Write c b;
          mret (Return r)
        end
      else
        match users !! 0%nat with
        | None => mret (Panic "index out of range [0] with length 0")
        | Some u =>
          let rp := {| responseData.Id := DB_Login.Id u;
                       responseData.Department := DB_Login.Department u;
                       responseData.Purview := DB_Login.Purview u;
                       responseData.Logname := DB_Login.Logname u |} in
          let '(b, err) := json.Marshal (responseData.reflect rp) in
          match err with
          | Some e =>
            emit (log.Errorf here "response format to json error: %v" [Some e]) ;;
            mret (Return (Some e))
          | None =>
            r ← routing.Write c b;
            mret (Return r)
          end
        end
    end
  end.

(** ** cmd/server/main.go: the process *)

(** [logger.Error(err)]: a line at error level with no format and the
    error as its one argument. *)
Definition log_Error (l : log.Logger) (e : error) : log.Entry :=
  {| log.by_ := l; log.level := log.LevelError; log.format := EmptyString;
     log.args := [Some e] |}.

Module server.

Definition Version : string := "1.0.0".

(** The fields of [config.Config] that [main] reads. *)
Record Config : Type := mkConfig {
  DSN : string;
  ServerPort : Z;
}.

(** [http.ErrServerClosed]. *)
Definition ErrServerClosed : error := errorString "http: Server closed".

(** What the process meets once [flag.Parse] has returned: the flag and
    the arguments it left, and the results of the calls [main] makes. *)
Record Host : Type := mkHost {
  AppConfig : string;
  Args : list string;
  Load : string -> error + Config;
  MustOpen : string -> string -> option error;
  Close : option error;
  ListenAndServe : string -> option error;
}.

(** An argument of a formatted print. *)
Inductive Arg : Type :=
| AInt (i : Z)
| AString (s : string)
| AStrings (l : list string).

(** What [main] does that can be seen from outside, in order; a format
    is kept as the source writes it, with its arguments beside it. *)
Inductive Event : Type :=
| Printf (format : string) (args : list Arg)
| Log (e : log.Entry)
| Infof (by_ : log.Logger) (format : string) (args : list Arg)
| ConfigLoad (path : string)
| Open (driver dsn : string)
| CloseDB
| GoGracefulShutdown (addr : string) (seconds : Z)
| Listen (addr : string).

(** A step of the process goes on with a value or ends it by [os.Exit]. *)
Inductive Step (A : Type) : Type :=
| Done (a : A)
| Exit (code : Z).
Arguments Done {A} a.
Arguments Exit {A} code.

Definition P (A : Type) : Type := list Event -> Step A * list Event.

#[global] Instance P_ret : MRet P := fun A (x : A) t => (Done x, t).
#[global] Instance P_bind : MBind P := fun A B (f : A -> P B) (m : P A) t =>
  match m t with
  | (Done x, t') => f x t'
  | (Exit code, t') => (Exit code, t')
  end.

Definition event (e : Event) : P unit := fun t => (Done tt, (t ++ [e])%list).

(** [os.Exit(code)]: nothing that follows runs, deferred calls included. *)
Definition os_Exit {A} (code : Z) : P A := fun t => (Exit code, t).

(** [defer d] before the rest of the function: [d] runs when the rest
    returns, and does not when the rest ends the process. *)
Definition defer (d : P unit) (rest : P unit) : P unit := fun t =>
  match rest t with
  | (Done _, t') => d t'
  | (Exit code, t') => (Exit code, t')
  end.

(** [flag.Arg(i)]: the empty string when there is no such argument. *)
Definition Arg_ (args : list string) (i : nat) : string :=
  default EmptyString (args !! i).

(** The loop over the arguments, [remaining] turns before [i] reaches
    [flag.NArg()]. *)
Fixpoint argLoop (args : list string) (remaining i : nat) : P unit :=
  match remaining with
  | O => mret tt
  | S k =>
    event (Printf "arg[%d] = %s\n" [AInt (Z.of_nat i); AString (Arg_ args i)]) ;;
    argLoop args k (S i)
  end.

(** [fmt.Sprintf(":%v", port)]. *)
Definition address (port : Z) : string :=
  ":" ++ NilZero.string_of_int (Z.to_int port).

(** [main] from the line after [flag.Parse()]. *)
Definition steps (h : Host) : P unit :=
  event (Printf "args=%s, num=%d\n"
           [AStrings (Args h); AInt (Z.of_nat (length (Args h)))]) ;;
  argLoop (Args h) (length (Args h)) 0 ;;
  let logger :=
    log.With {| log.ctx := None; log.bound := [] |} None [("version", log.KString Version)] in
  event (Log (log.Info logger "server init...")) ;;
  event (ConfigLoad (AppConfig h)) ;;
  match Load h (AppConfig h) with
  | inl err =>
    event (Log (log.Errorf logger "failed to load application configuration: %s" [Some err])) ;;
    os_Exit (-1)
  | inr cfg =>
    event (Open "mysql" (DSN cfg)) ;;
    match MustOpen h "mysql" (DSN cfg) with
    | Some err =>
      event (Log (log.Errorf logger "failed to connect database: %s" [Some err])) ;;
      os_Exit (-1)
    | None =>
      defer
        (event CloseDB ;;
         match Close h with
         | Some err => event (Log (log_Error logger err))
         | None => mret tt
         end)
        (let addr := address (ServerPort cfg) in
         event (GoGracefulShutdown addr 10) ;;
         event (Infof logger "server %v is running at %v" [AString Version; AString addr]) ;;
         event (Listen addr) ;;
         match ListenAndServe h addr with
         | Some err =>
           if decide (err = ErrServerClosed) then mret tt
           else event (Log (log_Error logger err)) ;; os_Exit (-1)
         | None => mret tt
         end)
    end
  end.

(** The command line as [flag.Parse] takes it: one it ends the process
    on by itself, with the code of its [os.Exit] (an undefined flag, a
    request for help), or one it accepts. *)
Inductive CommandLine : Type :=
| Rejected (code : Z)
| Accepted (h : Host).

Definition flag_Parse (cl : CommandLine) : P Host :=
  match cl with
  | Rejected code => os_Exit code
  | Accepted h => mret h
  end.

Definition main (cl : CommandLine) : P unit :=
  h ← flag_Parse cl;
  steps h.

(** The process from its start: how it ends and what it did. *)
Definition start (cl : CommandLine) : Step unit * list Event := main cl [].

(** The process on a command line [flag.Parse] accepted. *)
Definition run (h : Host) : Step unit * list Event := start (Accepted h).

End server.


(** * What the claims speak of *)

(** ** The text of the bodies *)

(** The text of a JSON object, as the wire contract writes it: the
    members in order, each a quoted name, a colon and the text of the
    value, with commas between them and braces around them. *)
Definition member (m : string * string) : string :=
  json.quote ++ fst m ++ json.quote ++ ":" ++ snd m.

Fixpoint joined (l : list string) : string :=
  match l with
  | [] => EmptyString
  | [x] => x
  | x :: l' => x ++ "," ++ joined l'
  end.

Definition objectText (members : list (string * string)) : string :=
  "{" ++ joined (map member members) ++ "}".

(** The body of the credential mismatch. *)
Definition mismatchBody : string :=
  objectText [ ("error", json.quote ++ "Loginname or password not correct." ++ json.quote) ].

(** A double quote behind a backslash. *)
Definition escapedQuote : string := "\" ++ json.quote.

(** The body of the credential mismatch as a JSON string and a newline:
    the quotes of the object escaped, and quotes around it. *)
Definition mismatchBodyQuoted : string :=
  json.quote
  ++ "{" ++ escapedQuote ++ "error" ++ escapedQuote ++ ":"
  ++ escapedQuote ++ "Loginname or password not correct." ++ escapedQuote ++ "}"
  ++ json.quote ++ json.newline.

(** ** The text, read from the other end *)

(** What a client that reads JSON makes of the text of a number and of
    a string. *)

Module wire.

(** A decimal integer as a client reads it. *)
Definition readInt (t : string) : option Z :=
  option_map Z.of_int (NilZero.int_of_string t).

Definition hexValue (a : ascii) : option N :=
  let b := N_of_ascii a in
  if ((48 <=? b) && (b <=? 57))%N then Some (b - 48)%N
  else if ((97 <=? b) && (b <=? 102))%N then Some (b - 87)%N
  else if ((65 <=? b) && (b <=? 70))%N then Some (b - 55)%N
  else None.

(** The code unit of the four hex digits of an escape. *)
Definition hex4 (h1 h2 h3 h4 : ascii) : option N :=
  match hexValue h1, hexValue h2, hexValue h3, hexValue h4 with
  | Some x1, Some x2, Some x3, Some x4 => Some (((x1 * 16 + x2) * 16 + x3) * 16 + x4)%N
  | _, _, _, _ => None
  end.

(** A code point of the basic plane in UTF-8. *)
Definition utf8 (c : N) : string :=
  if (c <? 128)%N then String (ascii_of_N c) ""
  else if (c <? 2048)%N then
    String (ascii_of_N (192 + c / 64)) (String (ascii_of_N (128 + c mod 64)) "")
  else
    String (ascii_of_N (224 + c / 4096))
      (String (ascii_of_N (128 + (c / 64) mod 64))
         (String (ascii_of_N (128 + c mod 64)) "")).

(** The character a two-byte escape stands for. *)
Definition unescape (e : ascii) : option ascii :=
  let b := N_of_ascii e in
  if (b =? 34)%N then Some e
  else if (b =? 92)%N then Some e
  else if (b =? 47)%N then Some e
  else if (b =? 98)%N then Some (ascii_of_N 8)
  else if (b =? 102)%N then Some (ascii_of_N 12)
  else if (b =? 110)%N then Some (ascii_of_N 10)
  else if (b =? 114)%N then Some (ascii_of_N 13)
  else if (b =? 116)%N then Some (ascii_of_N 9)
  else None.

(** The string a JSON string literal stands for, read from behind its
    opening quote up to the closing one, after which the text must end.
    Control characters must be escaped; the escape of half a surrogate
    pair is not read. *)
Fixpoint readBody (t : string) : option string :=
  match t with
  | EmptyString => None
  | String a rest =>
    let b := N_of_ascii a in
    if (b =? 34)%N then
      match rest with
      | EmptyString => Some EmptyString
      | String _ _ => None
      end
    else if (b =? 92)%N then
      match rest with
      | EmptyString => None
      | String e rest1 =>
        if (N_of_ascii e =? 117)%N then
          match rest1 with
          | String h1 (String h2 (String h3 (String h4 rest2))) =>
            match hex4 h1 h2 h3 h4 with
            | Some c =>
              if ((55296 <=? c) && (c <? 57344))%N then None
              else option_map (fun s => utf8 c ++ s) (readBody rest2)
            | None => None
            end
          | _ => None
          end
        else
          match unescape e with
          | Some x => option_map (String x) (readBody rest1)
          | None => None
          end
      end
    else if (b <? 32)%N then None
    else option_map (String a) (readBody rest)
  end.

Definition readString (t : string) : option string :=
  match t with
  | EmptyString => None
  | String a rest => if (N_of_ascii a =? 34)%N then readBody rest else None
  end.

(** The number of bytes of the well-formed UTF-8 sequence at the head of
    a string, zero when there is none (Unicode, table 3-7). *)
Definition within (lo hi : N) (a : ascii) : bool :=
  ((lo <=? N_of_ascii a) && (N_of_ascii a <=? hi))%N.

Definition tail1 (lo hi : N) (s : string) (n : nat) : nat :=
  match s with
  | String a _ => if within lo hi a then n else O
  | EmptyString => O
  end.

Definition tail2 (lo hi : N) (s : string) (n : nat) : nat :=
  match s with
  | String a rest => if within lo hi a then tail1 128 191 rest n else O
  | EmptyString => O
  end.

Definition tail3 (lo hi : N) (s : string) (n : nat) : nat :=
  match s with
  | String a rest => if within lo hi a then tail2 128 191 rest n else O
  | EmptyString => O
  end.

Definition width (s : string) : nat :=
  match s with
  | EmptyString => O
  | String a rest =>
    let b := N_of_ascii a in
    if (b <? 128)%N then 1%nat
    else if ((194 <=? b) && (b <=? 223))%N then tail1 128 191 rest 2
    else if (b =? 224)%N then tail2 160 191 rest 3
    else if ((225 <=? b) && (b <=? 236))%N then tail2 128 191 rest 3
    else if (b =? 237)%N then tail2 128 159 rest 3
    else if ((238 <=? b) && (b <=? 239))%N then tail2 128 191 rest 3
    else if (b =? 240)%N then tail3 144 191 rest 4
    else if ((241 <=? b) && (b <=? 243))%N then tail3 128 191 rest 4
    else if (b =? 244)%N then tail3 128 143 rest 4
    else O
  end.

(** U+FFFD, the replacement character, in UTF-8. *)
Definition replacementBytes : string :=
  String (ascii_of_N 239) (String (ascii_of_N 191) (String (ascii_of_N 189) "")).

(** A string with every byte that is not part of a well-formed sequence
    replaced by U+FFFD; [keep] bytes are still owed to the sequence the
    bytes before began. *)
Fixpoint coerceFrom (keep : nat) (s : string) : string :=
  match s with
  | EmptyString => EmptyString
  | String a rest =>
    match keep with
    | S k => String a (coerceFrom k rest)
    | O =>
      match width s with
      | O => replacementBytes ++ coerceFrom 0 rest
      | S k => String a (coerceFrom k rest)
      end
    end
  end.

Definition coerce (s : string) : string := coerceFrom 0 s.

End wire.

(** Every byte of the string is outside ASCII. *)
Fixpoint high (s : string) : bool :=
  match s with
  | EmptyString => true
  | String a rest => (128 <=? N_of_ascii a)%N && high rest
  end.

(** A string the encoder writes as it is: bytes of [htmlSafeSet] only. *)
Fixpoint plain (s : string) : bool :=
  match s with
  | EmptyString => true
  | String a rest => json.htmlSafe (N_of_ascii a) && plain rest
  end.

Local Open Scope list_scope.

(** ** Requests, stores and what a call leaves *)

(** The store takes the stored value of a text column for equal to the
    given string: a string equal to it under the collation; NULL is
    equal to nothing. *)
Definition equalUnder (coll : dbx.Collation) (stored : option string) (given : string) : Prop :=
  match stored with
  | Some s => coll s given = true
  | None => False
  end.

#[global] Instance equalUnder_dec coll stored given : Decision (equalUnder coll stored given).
Proof. destruct stored; simpl; apply _. Defined.

(** The credential pair [rd] matches the stored row [r]. *)
Definition matches (coll : dbx.Collation) (rd : requestData.t) (r : loguser.Row) : Prop :=
  equalUnder coll (loguser.logname r) (requestData.LoginName rd) /\
  equalUnder coll (loguser.logpassword r) (requestData.Password rd).

#[global] Instance matches_dec coll rd r : Decision (matches coll rd r).
Proof. unfold matches. apply _. Defined.

(** The stored rows [rd] matches, in the order of the table. *)
Definition matching (coll : dbx.Collation) (rd : requestData.t) (rows : list loguser.Row)
    : list loguser.Row :=
  filter (matches coll rd) rows.

Definition id_le (a b : loguser.Row) : Prop := loguser.id a <= loguser.id b.

(** A row the handler's struct can take: an id within the 64 bits of a
    Go int, and a string, not NULL, in each text column it reads. *)
Definition scannable (r : loguser.Row) : Prop :=
  - 2 ^ 63 <= loguser.id r < 2 ^ 63
  /\ is_Some (loguser.department r)
  /\ is_Some (loguser.purview r)
  /\ is_Some (loguser.logname r).

(** The logger of the handler's own lines. *)
Definition here (logger : log.Logger) (c : routing.Context) : log.Logger :=
  log.With logger (Some (routing.Request_Context c)) [].

Definition pair (l p : string) : requestData.t :=
  {| requestData.LoginName := l; requestData.Password := p |}.

(** What the decoder makes of the request: [c.Read(&rd)] on a zero [rd]. *)
Definition decoded (c : routing.Context) : requestData.t * option error :=
  routing.Read c requestData.shape (pair EmptyString EmptyString).

(** The lines the query log function writes for a query and its error. *)
Definition queryLogged (db : dbcontext.DB) (q : dbx.SelectQuery) (err : option error)
    : list log.Entry :=
  match dbcontext.queryLog db with
  | Some f => f None (dbcontext.elapsed db) q err
  | None => []
  end.

(** The response after [c.Write(data)]. *)
Definition delivered (c : routing.Context) (data : string) (w : http.ResponseWriter)
    : http.ResponseWriter :=
  Response (snd (routing.Write c data {| logged := []; issued := []; Response := w |})).

(** The call ends the way a handler ends that hands [text] to [c.Write]
    as its last step: it returns what that call returns and leaves the
    response as that call leaves it. *)
Definition handsOver (c : routing.Context) (text : string) (w : World)
    (out : Result * World) : Prop :=
  fst out = Return (fst (routing.Write c text w))
  /\ Response (snd out) = Response (snd (routing.Write c text w)).

(** The field of [requestData] a key of the body names, by its tag. *)
Definition named (key : string) : option string :=
  json.name <$> json.lookupField requestData.fields key.

(** The value of a member can be stored in a field of type string. *)
Definition textual (j : json.JSON) : Prop :=
  j = json.JNull \/ exists s, j = json.JString s.

(** The error of the execution of the handler's query, as the query log
    function is told it. *)
Definition failure (s : dbx.Store) (rd : requestData.t) : option error :=
  match dbx.answer s (loginQuery rd) with
  | inl e => Some e
  | inr _ => None
  end.

(** What [q.All(&users)] leaves in [users] and returns. *)
Definition fetched (s : dbx.Store) (rd : requestData.t) : list DB_Login.t * option error :=
  match dbx.answer s (loginQuery rd) with
  | inl e => ([], Some e)
  | inr rows => DB_Login.scanAll (dbx.selects (loginQuery rd)) rows
  end.

(** The text the handler marshals for the user it found. *)
Definition success (u : DB_Login.t) : string :=
  fst (json.Marshal
         (responseData.reflect
            {| responseData.Id := DB_Login.Id u;
               responseData.Department := DB_Login.Department u;
               responseData.Purview := DB_Login.Purview u;
               responseData.Logname := DB_Login.Logname u |})).

(** The error the handler returns. *)
Definition returned (c : routing.Context) (s : dbx.Store) : option error :=
  match decoded c with
  | (_, Some e) => Some e
  | (rd, None) =>
    match fetched s rd with
    | (_, Some e) => Some e
    | (_, None) => routing.fault c
    end
  end.

(** The response it leaves. *)
Definition answered (c : routing.Context) (s : dbx.Store) (w : http.ResponseWriter)
    : http.ResponseWriter :=
  match decoded c with
  | (_, Some _) => w
  | (rd, None) =>
    match fetched s rd with
    | (_, Some _) => w
    | ([], None) => delivered c mismatchBody w
    | (u :: _, None) => delivered c (success u) w
    end
  end.

(** The data a response gains by it. *)
Definition bodies (c : routing.Context) (s : dbx.Store) : list string :=
  match decoded c, routing.fault c with
  | (rd, None), None =>
    match fetched s rd with
    | (_, Some _) => []
    | ([], None) => [routing.render (routing.writer c) mismatchBody]
    | (u :: _, None) => [routing.render (routing.writer c) (success u)]
    end
  | _, _ => []
  end.

(** The queries it sends. *)
Definition queries (c : routing.Context) : list dbx.SelectQuery :=
  match decoded c with
  | (_, Some _) => []
  | (rd, None) => [loginQuery rd]
  end.

(** The lines it and the query log function write. *)
Definition lines (logger : log.Logger) (db : dbcontext.DB) (c : routing.Context)
    : list log.Entry :=
  match decoded c with
  | (_, Some e) => [log.Errorf (here logger c) "invalid request: %v" [Some e]]
  | (rd, None) =>
    queryLogged db (loginQuery rd) (failure (dbcontext.store db) rd)
    ++ match fetched (dbcontext.store db) rd with
       | (_, Some e) => [log.Errorf (here logger c) "database query error: %v" [Some e]]
       | ([], None) => [log.Errorf (here logger c) "database query error: %v" [None]]
       | (_ :: _, None) => []
       end
  end.

(** ** The process, seen from outside *)

(** The logger [main] builds. *)
Definition mainLogger : log.Logger :=
  log.With {| log.ctx := None; log.bound := [] |} None
    [("version", log.KString server.Version)].

(** The lines [main] prints for its arguments. *)
Definition argLines (args : list string) : list server.Event :=
  server.Printf "args=%s, num=%d\n"
    [server.AStrings args; server.AInt (Z.of_nat (length args))]
  :: map (fun i => server.Printf "arg[%d] = %s\n"
                     [server.AInt (Z.of_nat i); server.AString (server.Arg_ args i)])
         (seq 0 (length args)).

(** What [main] does up to the call that loads the configuration. *)
Definition opening (h : server.Host) : list server.Event :=
  argLines (server.Args h)
  ++ [server.Log (log.Info mainLogger "server init...");
      server.ConfigLoad (server.AppConfig h)].

(** What it does from the opening of the database to the call that
    serves. *)
Definition serving_up (cfg : server.Config) : list server.Event :=
  [server.Open "mysql" (server.DSN cfg);
   server.GoGracefulShutdown (server.address (server.ServerPort cfg)) 10;
   server.Infof mainLogger "server %v is running at %v"
     [server.AString server.Version;
      server.AString (server.address (server.ServerPort cfg))];
   server.Listen (server.address (server.ServerPort cfg))].

(** The deferred call. *)
Definition closing (h : server.Host) : list server.Event :=
  server.CloseDB
  :: match server.Close h with
     | Some err => [server.Log (log_Error mainLogger err)]
     | None => []
     end.

(** ** Sample requests and stores *)

(** A world nothing has happened in yet. *)
Definition quiet : World :=
  {| logged := []; issued := []; Response := http.fresh |}.

(** A world after other requests. *)
Definition busy : World :=
  {| logged := [log.Info {| log.ctx := None; log.bound := [] |} "server init..."];
     issued := [dbx.Select ["id"]];
     Response := http.Write "earlier" http.fresh |}.

Definition root : log.Logger :=
  {| log.ctx := None; log.bound := [("version", log.KString "1.0.0")] |}.

Definition other : log.Logger :=
  {| log.ctx := None; log.bound := [] |}.

(** The row of the spec's scenario. *)
Definition alice : loguser.Row :=
  {| loguser.id := 1; loguser.department := Some "eng"; loguser.purview := Some "admin";
     loguser.logname := Some "alice"; loguser.logpassword := Some "secret" |}.

(** A second row under the same login name and password. *)
Definition alice7 : loguser.Row :=
  {| loguser.id := 7; loguser.department := Some "ops"; loguser.purview := Some "user";
     loguser.logname := Some "alice"; loguser.logpassword := Some "secret" |}.

(** A row stored with an empty password. *)
Definition keyless : loguser.Row :=
  {| loguser.id := 2; loguser.department := Some "ops"; loguser.purview := Some "user";
     loguser.logname := Some "bob"; loguser.logpassword := Some EmptyString |}.

(** A row with no department: the column holds NULL. *)
Definition carol : loguser.Row :=
  {| loguser.id := 3; loguser.department := None; loguser.purview := Some "user";
     loguser.logname := Some "carol"; loguser.logpassword := Some "pw" |}.


Definition refused : error := errorString "dial tcp: connection refused".

Definition credentials (l p : string) : json.JSON :=
  json.JObject [("loginname", json.JString l); ("password", json.JString p)].

(** A POST of a JSON body under main's wiring: the content type says
    JSON, the body is no XML and no form, the URL has no query, and the
    content negotiator has installed the JSON writer. *)
Definition request (j : json.JSON) : routing.Context :=
  {| routing.Request_Context := log.requestContext "r1";
     routing.Request_Method := "POST";
     routing.Request_ContentType := "application/json";
     routing.Request_Body := routing.Structured j;
     routing.Request_XML := routing.XMLMalformed (errorString "EOF");
     routing.Request_Form := ∅;
     routing.writer := routing.JSONDataWriter;
     routing.fault := None |}.

(** The same request sent without a content type. *)
Definition untyped (j : json.JSON) : routing.Context :=
  {| routing.Request_Context := log.requestContext "r1";
     routing.Request_Method := "POST";
     routing.Request_ContentType := EmptyString;
     routing.Request_Body := routing.Structured j;
     routing.Request_XML := routing.XMLMalformed (errorString "EOF");
     routing.Request_Form := ∅;
     routing.writer := routing.JSONDataWriter;
     routing.fault := None |}.

(** The same request over a connection that has gone away. *)
Definition hungUp (j : json.JSON) : routing.Context :=
  {| routing.Request_Context := log.requestContext "r3";
     routing.Request_Method := "POST";
     routing.Request_ContentType := "application/json";
     routing.Request_Body := routing.Structured j;
     routing.Request_XML := routing.XMLMalformed (errorString "EOF");
     routing.Request_Form := ∅;
     routing.writer := routing.JSONDataWriter;
     routing.fault := Some (errorString "write: broken pipe") |}.


Definition serving (rows : list loguser.Row) : dbcontext.DB :=
  serverDB root (dbx.Serving dbx.binary rows) 3.

(** A host on which everything works until the server is shut down. *)
Definition calm : server.Host :=
  {| server.AppConfig := "./config/dev.yml";
     server.Args := ["a"; "b"];
     server.Load := fun _ =>
       inr {| server.DSN := "root@tcp(127.0.0.1:3306)/fk"; server.ServerPort := 8080 |};
     server.MustOpen := fun _ _ => None;
     server.Close := None;
     server.ListenAndServe := fun _ => Some server.ErrServerClosed |}.

Definition inUse : error := errorString "listen tcp :8080: bind: address already in use".

(** The same host with the port taken. *)
Definition taken : server.Host :=
  {| server.AppConfig := "./config/dev.yml";
     server.Args := [];
     server.Load := server.Load calm;
     server.MustOpen := fun _ _ => None;
     server.Close := None;
     server.ListenAndServe := fun _ => Some inUse |}.

(** A host with no configuration file, and one with no database. *)
Definition bare : server.Host :=
  {| server.AppConfig := "./missing.yml";
     server.Args := [];
     server.Load := fun _ => inl (errorString "open ./missing.yml: no such file or directory");
     server.MustOpen := fun _ _ => None;
     server.Close := None;
     server.ListenAndServe := fun _ => None |}.

Definition dry : server.Host :=
  {| server.AppConfig := "./config/dev.yml";
     server.Args := [];
     server.Load := server.Load calm;
     server.MustOpen := fun _ _ => Some refused;
     server.Close := None;
     server.ListenAndServe := fun _ => None |}.

Definition busyClose : error := errorString "sql: connection is busy".

(** The calm host, whose database reports an error when it is closed. *)
Definition sticky : server.Host :=
  {| server.AppConfig := "./config/dev.yml";
     server.Args := [];
     server.Load := server.Load calm;
     server.MustOpen := fun _ _ => None;
     server.Close := Some busyClose;
     server.ListenAndServe := fun _ => Some server.ErrServerClosed |}.

(** * Properties *)

(** ** The store and the query *)

Lemma loginQuery_wellFormed rd : dbx.wellFormed (loginQuery rd) = true.
Proof. vm_compute. reflexivity. Qed.

Lemma meets_text coll stored given :
  dbx.meets coll (dbx.text stored) (dbx.SQLText given) = true <-> equalUnder coll stored given.
Proof.
  destruct stored as [s|]; simpl; [reflexivity|].
  split; [discriminate | contradiction].
Qed.

Lemma satisfies_login coll rd r :
  dbx.satisfies coll ({[ "logname" := dbx.SQLText (requestData.LoginName rd);
                         "logpassword" := dbx.SQLText (requestData.Password rd) ]}) r = true
  <-> matches coll rd r.
Proof.
  unfold dbx.satisfies, matches.
  rewrite bool_decide_eq_true.
  rewrite map_Forall_insert by reflexivity.
  rewrite map_Forall_singleton.
  change (dbx.column "logname" r) with (Some (dbx.text (loguser.logname r))).
  change (dbx.column "logpassword" r) with (Some (dbx.text (loguser.logpassword r))).
  now rewrite !meets_text.
Qed.

(** The store, when it serves, answers the handler's query with the rows
    the credential pair matches, by ascending id, all of them. *)
Lemma answer_login coll rd rows :
  dbx.answer (dbx.Serving coll rows) (loginQuery rd)
  = inr (dbx.ordered ["id"] (matching coll rd rows)).
Proof.
  unfold dbx.answer. rewrite loginQuery_wellFormed.
  f_equal.
  change (dbx.limit (loginQuery rd)) with (-1).
  change (dbx.offset (loginQuery rd)) with (-1).
  change (dbx.orderBy (loginQuery rd)) with ["id"].
  unfold dbx.window. simpl.
  f_equal. unfold matching.
  apply list_filter_iff. intros r.
  change (dbx.passes coll (dbx.where_ (loginQuery rd)) r) with
    (dbx.satisfies coll ({[ "logname" := dbx.SQLText (requestData.LoginName rd);
                            "logpassword" := dbx.SQLText (requestData.Password rd) ]}) r).
  rewrite <- satisfies_login. apply Is_true_true.
Qed.

(** *** ORDER BY id *)

Lemma row_leb_id a b : dbx.row_leb ["id"] a b = (loguser.id a <=? loguser.id b).
Proof.
  unfold dbx.row_leb. simpl.
  change (dbx.column "id" a) with (Some (dbx.SQLInt (loguser.id a))).
  change (dbx.column "id" b) with (Some (dbx.SQLInt (loguser.id b))).
  simpl. unfold Z.leb. destruct (loguser.id a ?= loguser.id b); reflexivity.
Qed.

Lemma place_perm cols r l : dbx.place cols r l ≡ₚ r :: l.
Proof.
  induction l as [|x l IH]; simpl.
  - reflexivity.
  - destruct (dbx.row_leb cols r x).
    + reflexivity.
    + rewrite IH. apply Permutation_swap.
Qed.

Lemma ordered_perm cols l : dbx.ordered cols l ≡ₚ l.
Proof.
  induction l as [|x l IH]; simpl.
  - reflexivity.
  - rewrite place_perm. now rewrite IH.
Qed.

Lemma place_sorted r l :
  StronglySorted id_le l -> StronglySorted id_le (dbx.place ["id"] r l).
Proof.
  induction 1 as [|x l Hs IH Hx]; simpl.
  - constructor; constructor.
  - rewrite row_leb_id. destruct (Z.leb_spec (loguser.id r) (loguser.id x)) as [Hle|Hlt].
    + constructor.
      * constructor; assumption.
      * constructor; [exact Hle|].
        eapply Forall_impl; [exact Hx|]. unfold id_le. intros y Hy. simpl in *. lia.
    + constructor; [exact IH|].
      rewrite place_perm. constructor; [unfold id_le; lia | exact Hx].
Qed.

Lemma ordered_sorted l : StronglySorted id_le (dbx.ordered ["id"] l).
Proof.
  induction l as [|x l IH]; simpl.
  - constructor.
  - apply place_sorted, IH.
Qed.

(** The first row of the answer has the smallest id of all. *)
Lemma ordered_head_least l u rest :
  dbx.ordered ["id"] l = u :: rest ->
  u ∈ l /\ forall r, r ∈ l -> loguser.id u <= loguser.id r.
Proof.
  intros E. split.
  - rewrite <- (ordered_perm ["id"] l), E. left.
  - intros r Hr. rewrite <- (ordered_perm ["id"] l), E in Hr.
    pose proof (ordered_sorted l) as S. rewrite E in S.
    apply StronglySorted_inv in S as [_ Hall].
    apply elem_of_cons in Hr as [->|Hr]; [lia|].
    rewrite Forall_forall in Hall. apply Hall, Hr.
Qed.

Lemma ordered_length cols l : length (dbx.ordered cols l) = length l.
Proof. apply Permutation_length, ordered_perm. Qed.

(** *** Rows into Go values *)

(** The struct a scannable row is scanned into. *)
Lemma scan_scannable r :
  scannable r ->
  exists d p l,
    loguser.department r = Some d /\ loguser.purview r = Some p /\ loguser.logname r = Some l
    /\ DB_Login.scan (dbx.selects (loginQuery (pair "" ""))) r
       = inr {| DB_Login.Id := loguser.id r; DB_Login.Department := d;
                DB_Login.Purview := p; DB_Login.Logname := l |}.
Proof.
  intros (Hid & [d Hd] & [p Hp] & [l Hl]). exists d, p, l.
  do 3 (split; [assumption|]).
  unfold DB_Login.scan, DB_Login.intColumn, DB_Login.textColumn.
  change (dbx.selects (loginQuery (pair "" ""))) with ["id"; "department"; "purview"; "logname"].
  rewrite !bool_decide_eq_true_2
    by (repeat constructor).
  change (dbx.column "id" r) with (Some (dbx.SQLInt (loguser.id r))).
  change (dbx.column "department" r) with (Some (dbx.text (loguser.department r))).
  change (dbx.column "purview" r) with (Some (dbx.text (loguser.purview r))).
  change (dbx.column "logname" r) with (Some (dbx.text (loguser.logname r))).
  rewrite Hd, Hp, Hl. cbn [dbx.text].
  assert (DB_Login.fitsInt (loguser.id r) = true) as ->; [|reflexivity].
  unfold DB_Login.fitsInt. apply andb_true_iff. split; [apply Z.leb_le | apply Z.ltb_lt]; lia.
Qed.

(** A row the struct cannot take fails the scan. *)
Lemma scan_not_scannable r :
  ~ scannable r ->
  exists e, DB_Login.scan (dbx.selects (loginQuery (pair "" ""))) r = inl e.
Proof.
  intros Hn.
  unfold DB_Login.scan, DB_Login.intColumn, DB_Login.textColumn.
  change (dbx.selects (loginQuery (pair "" ""))) with ["id"; "department"; "purview"; "logname"].
  rewrite !bool_decide_eq_true_2
    by (repeat constructor).
  change (dbx.column "id" r) with (Some (dbx.SQLInt (loguser.id r))).
  change (dbx.column "department" r) with (Some (dbx.text (loguser.department r))).
  change (dbx.column "purview" r) with (Some (dbx.text (loguser.purview r))).
  change (dbx.column "logname" r) with (Some (dbx.text (loguser.logname r))).
  cbv beta iota.
  destruct (DB_Login.fitsInt (loguser.id r)) eqn:Hf; [|eexists; reflexivity].
  destruct (loguser.department r) as [d|] eqn:Hd; [|eexists; reflexivity].
  destruct (loguser.purview r) as [p|] eqn:Hp; [|eexists; reflexivity].
  destruct (loguser.logname r) as [l|] eqn:Hl; [|eexists; reflexivity].
  exfalso. apply Hn. unfold scannable. rewrite Hd, Hp, Hl.
  unfold DB_Login.fitsInt in Hf. apply andb_true_iff in Hf as [H1 H2].
  apply Z.leb_le in H1. apply Z.ltb_lt in H2.
  split; [lia|]. repeat split; eexists; reflexivity.
Qed.

Lemma scanAll_scannable rows :
  Forall scannable rows ->
  exists users,
    DB_Login.scanAll (dbx.selects (loginQuery (pair "" ""))) rows = (users, None)
    /\ length users = length rows
    /\ forall r rest, rows = r :: rest ->
         exists d p l u,
           loguser.department r = Some d /\ loguser.purview r = Some p
           /\ loguser.logname r = Some l
           /\ head users
              = Some {| DB_Login.Id := loguser.id r; DB_Login.Department := d;
                        DB_Login.Purview := p; DB_Login.Logname := l |}
           /\ users = u :: drop 1 users.
Proof.
  induction 1 as [|r rows Hr Hrows (users & IH1 & IH2 & _)].
  - exists []. repeat split. intros r rest H. discriminate H.
  - destruct (scan_scannable r Hr) as (d & p & l & Hd & Hp & Hl & Hs).
    eexists. cbn [DB_Login.scanAll]. rewrite Hs, IH1.
    split; [reflexivity|]. split; [cbn; now rewrite IH2|].
    intros r' rest [= <- <-]. exists d, p, l. eexists.
    repeat split; assumption.
Qed.

Lemma scanAll_failure rows :
  Exists (fun r => ~ scannable r) rows ->
  exists us e, DB_Login.scanAll (dbx.selects (loginQuery (pair "" ""))) rows = (us, Some e).
Proof.
  induction 1 as [r rows Hr|r rows Hex (us & e & IH)]; cbn [DB_Login.scanAll].
  - destruct (scan_not_scannable r Hr) as (e & ->). now exists [], e.
  - destruct (DB_Login.scan _ r) as [e'|u]; [now exists [], e'|].
    rewrite IH. now exists (u :: us), e.
Qed.

(** ** Strings and numbers, written and read back *)

(** *** UTF-8 as the encoder decodes it *)

Lemma cont_within a lo hi :
  json.cont a lo hi = if wire.within lo hi a then Some (N.land (N_of_ascii a) 63) else None.
Proof. reflexivity. Qed.

Lemma within_high lo hi a :
  (128 <=? lo)%N = true -> wire.within lo hi a = true -> (128 <=? N_of_ascii a)%N = true.
Proof.
  unfold wire.within. intros Hlo H. apply andb_true_iff in H as [H _].
  apply N.leb_le in Hlo, H. apply N.leb_le. lia.
Qed.


Ltac decide_tests :=
  repeat (match goal with
          | |- context [(?x <? ?y)%N] => destruct (N.ltb_spec x y)
          | |- context [(?x <=? ?y)%N] => destruct (N.leb_spec x y)
          | |- context [(?x =? ?y)%N] => destruct (N.eqb_spec x y)
          end; try (exfalso; lia); cbn [andb orb negb]).

Ltac walk :=
  cbn [wire.tail1 wire.tail2 wire.tail3];
  lazymatch goal with
  | |- match (match ?r with EmptyString => _ | String _ _ => _ end) with
       | json.RuneError1 => _ | json.Rune _ _ => _ end =>
    is_var r; destruct r; walk
  | |- context [json.cont ?a ?lo ?hi] =>
    rewrite (cont_within a lo hi); destruct (wire.within lo hi a) eqn:?; walk
  | |- context [wire.within ?lo ?hi ?a] =>
    destruct (wire.within lo hi a) eqn:?; walk
  | _ => idtac
  end.

Lemma decode_width a0 rest :
  (N_of_ascii a0 <? 128)%N = false ->
  match json.DecodeRuneInString (String a0 rest) with
  | json.RuneError1 => wire.width (String a0 rest) = O
  | json.Rune c n =>
    wire.width (String a0 rest) = n
    /\ exists pre r, rest = (pre ++ r)%string /\ n = S (String.length pre)
                     /\ pre <> EmptyString /\ high pre = true
  end.
Proof.
  intros H. apply N.ltb_ge in H.
  unfold json.DecodeRuneInString, wire.width.
  set (b0 := N_of_ascii a0) in *. clearbody b0.
  decide_tests; cbv zeta; try reflexivity; walk; try reflexivity.
  all: split; [reflexivity|].
  all: lazymatch goal with
       | |- exists pre r, String ?a1 (String ?a2 (String ?a3 ?t)) = _ /\ 4%nat = _ /\ _ =>
         exists (String a1 (String a2 (String a3 EmptyString))), t
       | |- exists pre r, String ?a1 (String ?a2 ?t) = _ /\ 3%nat = _ /\ _ =>
         exists (String a1 (String a2 EmptyString)), t
       | |- exists pre r, String ?a1 ?t = _ /\ 2%nat = _ /\ _ =>
         exists (String a1 EmptyString), t
       end.
  all: split; [reflexivity|]; split; [reflexivity|]; split; [discriminate|].
  all: cbn [high];
       repeat match goal with
              | E : wire.within ?lo ?hi ?a = true |- _ =>
                rewrite (within_high lo hi a eq_refl E); clear E
              end; reflexivity.
Qed.

(** *** The code points the encoder escapes *)

Lemma land_shiftl_low (x n y : N) : (y < 2 ^ n)%N -> N.land (N.shiftl x n) y = 0%N.
Proof.
  intros Hy. apply N.bits_inj_0. intros m. rewrite N.land_spec.
  destruct (N.lt_ge_cases m n) as [Hlt|Hge].
  - now rewrite N.shiftl_spec_low.
  - rewrite <- (N.mod_small y (2 ^ n)) by exact Hy.
    rewrite N.mod_pow2_bits_high by exact Hge. apply andb_false_r.
Qed.

Lemma lor_shiftl_add (x n y : N) : (y < 2 ^ n)%N -> N.lor (N.shiftl x n) y = (x * 2 ^ n + y)%N.
Proof.
  intros Hy. rewrite <- N.lxor_lor by (now apply land_shiftl_low).
  rewrite <- N.add_nocarry_lxor by (now apply land_shiftl_low).
  now rewrite N.shiftl_mul_pow2.
Qed.

Lemma cont_spec a lo hi c :
  json.cont a lo hi = Some c ->
  (lo <= N_of_ascii a <= hi)%N /\ c = (N_of_ascii a mod 64)%N.
Proof.
  unfold json.cont. intros H.
  destruct ((lo <=? N_of_ascii a) && (N_of_ascii a <=? hi))%N eqn:E; [|discriminate H].
  apply andb_true_iff in E as [E1 E2]. apply N.leb_le in E1, E2.
  injection H as <-. split; [lia|].
  change 63%N with (N.ones 6). now rewrite N.land_ones.
Qed.

Ltac name_remainders :=
  repeat match goal with
         | _ : context [(?x mod ?k)%N] |- _ =>
           let m := fresh "m" in set (m := (x mod k)%N) in *; clearbody m
         | _ : context [(?x / ?k)%N] |- _ =>
           let q := fresh "q" in set (q := (x / k)%N) in *; clearbody q
         end.

Ltac walk2 :=
  lazymatch goal with
  | |- (match ?r with EmptyString => _ | String _ _ => _ end) = _ -> _ =>
    is_var r; destruct r; walk2
  | |- context [json.cont ?a ?lo ?hi] =>
    let E := fresh "E" in
    destruct (json.cont a lo hi) eqn:E;
    [apply cont_spec in E; destruct E as [? ?] | ]; walk2
  | _ => idtac
  end.

Lemma decode_special a0 rest c n :
  json.DecodeRuneInString (String a0 rest) = json.Rune c n ->
  (c = 8232 \/ c = 8233)%N ->
  exists a2 r,
    a0 = ascii_of_N 226 /\ rest = String (ascii_of_N 128) (String a2 r)
    /\ N_of_ascii a2 = (c - 8064)%N /\ n = 3%nat.
Proof.
  intros H Hc. revert H.
  unfold json.DecodeRuneInString.
  set (b0 := N_of_ascii a0) in *.
  assert (a0 = ascii_of_N b0) as Ha0 by (symmetry; apply ascii_N_embedding).
  clearbody b0.
  decide_tests; cbv zeta; walk2; try (intros H; discriminate H); intros [= <- <-].
  all: repeat match goal with H : ?n = (_ mod 64)%N |- _ => subst n end.
  all: change 31%N with (N.ones 5) in *; change 15%N with (N.ones 4) in *;
       change 7%N with (N.ones 3) in *; rewrite ?N.land_ones in *.
  all: change (2 ^ 5)%N with 32%N in *; change (2 ^ 4)%N with 16%N in *;
       change (2 ^ 3)%N with 8%N in *.
  all: repeat match goal with
       | |- context [(?x mod ?k)%N] =>
         lazymatch goal with
         | _ : (x mod k < k)%N |- _ => fail
         | _ => pose proof (N.mod_lt x k ltac:(discriminate));
                pose proof (N.div_mod' x k)
         end
       | _ : context [(?x mod ?k)%N] |- _ =>
         lazymatch goal with
         | _ : (x mod k < k)%N |- _ => fail
         | _ => pose proof (N.mod_lt x k ltac:(discriminate));
                pose proof (N.div_mod' x k)
         end
       end.
  all: rewrite ?(lor_shiftl_add _ 6) in * by (change (2 ^ 6)%N with 64%N; lia).
  all: rewrite ?(lor_shiftl_add _ 12) in * by (change (2 ^ 12)%N with 4096%N; change (2 ^ 6)%N with 64%N; lia).
  all: rewrite ?(lor_shiftl_add _ 18) in * by (change (2 ^ 18)%N with 262144%N; change (2 ^ 12)%N with 4096%N; change (2 ^ 6)%N with 64%N; lia).
  all: change (2 ^ 18)%N with 262144%N in *; change (2 ^ 12)%N with 4096%N in *; change (2 ^ 6)%N with 64%N in *.
  all: destruct Hc as [Hc|Hc]; try (exfalso; clear Ha0; name_remainders; lia).
  all: lazymatch goal with
       | |- exists a2 r, _ /\ String ?x (String ?y ?t) = _ /\ _ =>
         assert (b0 = 226%N /\ N_of_ascii x = 128%N) as [Hb Hx]
           by (clear Ha0; name_remainders; lia);
         exists y, t; split; [rewrite Ha0, Hb; reflexivity|];
         split; [rewrite <- (ascii_N_embedding x), Hx; reflexivity|];
         split; [clear Ha0; name_remainders; lia | reflexivity]
       end.
Qed.

(** *** Appending strings *)

Lemma append_assoc (a b c : string) : ((a ++ b) ++ c)%string = (a ++ b ++ c)%string.
Proof.
  induction a as [|x a IH]; [reflexivity|].
  change (String x ((a ++ b) ++ c) = String x (a ++ b ++ c))%string.
  f_equal. exact IH.
Qed.

Lemma append_nil_r (a : string) : (a ++ EmptyString)%string = a.
Proof.
  induction a as [|x a IH]; [reflexivity|].
  change (String x (a ++ EmptyString) = String x a)%string.
  f_equal. exact IH.
Qed.

Lemma append_nil_l (a : string) : (EmptyString ++ a)%string = a.
Proof. reflexivity. Qed.

Lemma append_cons (x : ascii) (a b : string) :
  (String x a ++ b)%string = String x (a ++ b).
Proof. reflexivity. Qed.

Lemma length_append (a b : string) :
  String.length (a ++ b) = (String.length a + String.length b)%nat.
Proof.
  induction a as [|x a IH]; [reflexivity|].
  rewrite append_cons. cbn [String.length]. now rewrite IH.
Qed.

Lemma option_map_compose {A B C} (f : B -> C) (g : A -> B) (o : option A) :
  option_map f (option_map g o) = option_map (fun x => f (g x)) o.
Proof. now destruct o. Qed.

(** *** What the reader makes of what the encoder writes *)

Lemma readBody_pass a t :
  (128 <=? N_of_ascii a)%N = true ->
  wire.readBody (String a t) = option_map (String a) (wire.readBody t).
Proof.
  intros H. apply N.leb_le in H. cbn [wire.readBody]. cbv zeta.
  decide_tests. reflexivity.
Qed.

Lemma readBody_high pre t :
  high pre = true ->
  wire.readBody (pre ++ t) = option_map (fun s => (pre ++ s)%string) (wire.readBody t).
Proof.
  induction pre as [|a pre IH]; intros H.
  - rewrite append_nil_l. now destruct (wire.readBody t).
  - cbn [high] in H. apply andb_true_iff in H as [Ha Hp].
    rewrite append_cons, readBody_pass by exact Ha.
    rewrite IH by exact Hp. now destruct (wire.readBody t).
Qed.

Lemma readBody_safe h a t :
  json.htmlSafe (N_of_ascii a) || (negb h && json.safe (N_of_ascii a)) = true ->
  wire.readBody (String a t) = option_map (String a) (wire.readBody t).
Proof.
  destruct h, a as [[|] [|] [|] [|] [|] [|] [|] [|]]; intros H;
    try (vm_compute in H; discriminate H); reflexivity.
Qed.

Lemma readBody_escapeByte h a t :
  (N_of_ascii a <? 128)%N = true ->
  json.htmlSafe (N_of_ascii a) || (negb h && json.safe (N_of_ascii a)) = false ->
  wire.readBody (json.escapeByte a ++ t) = option_map (String a) (wire.readBody t).
Proof.
  destruct h, a as [[|] [|] [|] [|] [|] [|] [|] [|]]; intros H1 H2;
    try (vm_compute in H1; discriminate H1);
    try (vm_compute in H2; discriminate H2); reflexivity.
Qed.

Lemma readBody_replacement t :
  wire.readBody (json.replacement ++ t)
  = option_map (fun s => (wire.replacementBytes ++ s)%string) (wire.readBody t).
Proof. reflexivity. Qed.

Lemma readBody_separator c t :
  (c = 8232 \/ c = 8233)%N ->
  wire.readBody ("\u202" ++ String (json.hexdigit (N.land c 15)) t)
  = option_map
      (fun s => String (ascii_of_N 226)
                  (String (ascii_of_N 128) (String (ascii_of_N (c - 8064)) s)))
      (wire.readBody t).
Proof. intros [->| ->]; reflexivity. Qed.

(** *** The encoder over a sequence it has decoded *)

Lemma stringBody_Pass h pre : forall t,
  pre <> EmptyString ->
  json.stringBody h (json.Pass (String.length pre)) (pre ++ t)
  = (pre ++ json.stringBody h json.Look t)%string.
Proof.
  induction pre as [|a pre IH]; intros t Hne; [contradiction|].
  rewrite !append_cons. cbn [json.stringBody String.length].
  f_equal. destruct pre as [|a' pre]; [reflexivity|].
  cbn [String.length json.step]. apply (IH t). discriminate.
Qed.

Lemma stringBody_Skip h pre : forall t,
  pre <> EmptyString ->
  json.stringBody h (json.Skip (String.length pre)) (pre ++ t)
  = json.stringBody h json.Look t.
Proof.
  induction pre as [|a pre IH]; intros t Hne; [contradiction|].
  rewrite !append_cons. cbn [json.stringBody String.length].
  destruct pre as [|a' pre]; [reflexivity|].
  cbn [String.length json.step]. apply (IH t). discriminate.
Qed.

Lemma coerceFrom_keep pre : forall t,
  wire.coerceFrom (String.length pre) (pre ++ t) = (pre ++ wire.coerce t)%string.
Proof.
  induction pre as [|a pre IH]; intros t; [reflexivity|].
  rewrite !append_cons. cbn [wire.coerceFrom String.length]. now rewrite IH.
Qed.

Lemma coerce_head a rest :
  wire.coerce (String a rest)
  = match wire.width (String a rest) with
    | O => (wire.replacementBytes ++ wire.coerce rest)%string
    | S k => String a (wire.coerceFrom k rest)
    end.
Proof. reflexivity. Qed.

(** The encoder's string loop, read back: the string it was given, with
    U+FFFD for each byte outside well-formed UTF-8. *)
Lemma readBody_stringBody h : forall n s,
  (String.length s <= n)%nat ->
  wire.readBody (json.stringBody h json.Look s ++ json.quote) = Some (wire.coerce s).
Proof.
  induction n as [|n IH]; intros [|a rest] Hlen; try reflexivity.
  { cbn in Hlen. lia. }
  cbn [String.length] in Hlen.
  rewrite coerce_head. cbn [json.stringBody]. cbv zeta.
  destruct (N_of_ascii a <? 128)%N eqn:Hb.
  - assert (wire.width (String a rest) = 1%nat) as -> by (cbn; now rewrite Hb).
    destruct (json.htmlSafe (N_of_ascii a) || (negb h && json.safe (N_of_ascii a))) eqn:Hs.
    + rewrite append_cons, (readBody_safe h) by exact Hs.
      rewrite IH by lia. reflexivity.
    + rewrite append_assoc, (readBody_escapeByte h) by assumption.
      rewrite IH by lia. reflexivity.
  - pose proof (decode_width a rest Hb) as Hw.
    destruct (json.DecodeRuneInString (String a rest)) as [|c size] eqn:D.
    + rewrite Hw, append_assoc, readBody_replacement, IH by lia. reflexivity.
    + destruct Hw as (Hw & pre & r & -> & -> & Hne & Hhigh).
      rewrite Hw. rewrite length_append in Hlen.
      assert (json.after json.Pass (S (String.length pre)) = json.Pass (String.length pre)
              /\ json.after json.Skip (S (String.length pre)) = json.Skip (String.length pre))
        as [HP HS].
      { destruct pre; [contradiction|]. split; reflexivity. }
      rewrite HP, HS.
      destruct ((c =? 8232) || (c =? 8233))%N eqn:Hc.
      * apply orb_true_iff in Hc. rewrite !N.eqb_eq in Hc.
        destruct (decode_special _ _ _ _ D Hc) as (a2 & r2 & -> & Hrest & Ha2 & Hsize).
        destruct pre as [|p1 [|p2 [|p3 pre]]]; try discriminate Hsize.
        rewrite !append_cons, append_nil_l in Hrest. injection Hrest as -> -> ->.
        rewrite stringBody_Skip by discriminate.
        rewrite !append_assoc.
        change ("\u202" ++ String ?x ?t ++ ?u)%string with ("\u202" ++ String x (t ++ u))%string.
        rewrite (readBody_separator c) by exact Hc.
        rewrite IH by lia. rewrite coerceFrom_keep.
        rewrite <- Ha2, ascii_N_embedding. reflexivity.
      * rewrite stringBody_Pass by exact Hne.
        rewrite append_cons, readBody_pass by (apply N.leb_le; apply N.ltb_ge in Hb; lia).
        rewrite append_assoc, readBody_high by exact Hhigh.
        rewrite IH by lia. rewrite coerceFrom_keep. reflexivity.
Qed.

Lemma readString_encodeStringWith h s :
  wire.readString (json.encodeStringWith h s) = Some (wire.coerce s).
Proof.
  unfold json.encodeStringWith, json.quote at 1. rewrite append_cons, append_nil_l.
  cbn [wire.readString]. change (N_of_ascii (ascii_of_N 34) =? 34)%N with true. cbv iota.
  apply (readBody_stringBody h (String.length s)). lia.
Qed.

Lemma readInt_encodeInt i : wire.readInt (json.encodeInt i) = Some i.
Proof.
  unfold wire.readInt, json.encodeInt.
  rewrite NilZero.isi.
  - cbn [option_map]. now rewrite DecimalZ.of_to.
  - destruct i as [|p|p]; try discriminate.
    intros [= H]. exact (DecimalPos.Unsigned.to_uint_nonnil p H).
  - destruct i as [|p|p]; try discriminate.
    intros [= H]. exact (DecimalPos.Unsigned.to_uint_nonnil p H).
Qed.

(** ** The bodies the handler writes *)

Ltac flatten_text :=
  cbn; rewrite ?append_assoc, ?append_nil_r, ?append_nil_l; reflexivity.

Lemma Marshal_responseData (v : responseData.t) :
  json.Marshal (responseData.reflect v)
  = (objectText [ ("id", json.encodeInt (responseData.Id v));
                  ("department", json.encodeString (responseData.Department v));
                  ("purview", json.encodeString (responseData.Purview v));
                  ("logname", json.encodeString (responseData.Logname v)) ], None).
Proof.
  unfold json.Marshal, responseData.reflect, objectText, member. flatten_text.
Qed.

Lemma Marshal_ErrorResponseData (v : ErrorResponseData.t) :
  json.Marshal (ErrorResponseData.reflect v)
  = (objectText [ ("error", json.encodeString (ErrorResponseData.Error v)) ], None).
Proof.
  unfold json.Marshal, ErrorResponseData.reflect, objectText, member. flatten_text.
Qed.

Lemma Marshal_mismatch :
  json.Marshal (ErrorResponseData.reflect
                  {| ErrorResponseData.Error := "Loginname or password not correct." |})
  = (mismatchBody, None).
Proof. vm_compute. reflexivity. Qed.

Lemma success_text u :
  success u
  = objectText [ ("id", json.encodeInt (DB_Login.Id u));
                 ("department", json.encodeString (DB_Login.Department u));
                 ("purview", json.encodeString (DB_Login.Purview u));
                 ("logname", json.encodeString (DB_Login.Logname u)) ].
Proof. unfold success. now rewrite Marshal_responseData. Qed.

(** The JSON writer makes a JSON string of the mismatch body. *)
Lemma EncodeString_mismatchBody : json.EncodeString mismatchBody = mismatchBodyQuoted.
Proof. vm_compute. reflexivity. Qed.

(** ** The paths of the handler *)

Lemma All_run db q w :
  All db q w =
  (match dbx.answer (dbcontext.store db) q with
   | inl e => ([], Some e)
   | inr rows => DB_Login.scanAll (dbx.selects q) rows
   end,
   {| logged := logged w ++ queryLogged db q
                  (match dbx.answer (dbcontext.store db) q with
                   | inl e => Some e
                   | inr _ => None
                   end);
      issued := issued w ++ [q];
      Response := Response w |}).
Proof.
  unfold All, queryLogged, mbind, M_bind, mret, M_ret, send, emits.
  destruct (dbcontext.queryLog db) as [f|]; simpl.
  - reflexivity.
  - now rewrite app_nil_r.
Qed.

Lemma Write_run c data w :
  routing.Write c data w =
  (routing.fault c,
   {| logged := logged w; issued := issued w;
      Response := delivered c data (Response w) |}).
Proof.
  unfold delivered, routing.Write. destruct (routing.fault c); reflexivity.
Qed.

Lemma delivered_fault c data w e :
  routing.fault c = Some e ->
  delivered c data w = http.WriteHeader http.StatusOK w.
Proof. unfold delivered, routing.Write. now intros ->. Qed.

Lemma delivered_written c data w :
  routing.fault c = None ->
  delivered c data w = http.Write (routing.render (routing.writer c) data) w.
Proof. unfold delivered, routing.Write. now intros ->. Qed.

Lemma written_Write data w : http.written (http.Write data w) = http.written w ++ [data].
Proof. unfold http.Write, http.WriteHeader. now destruct (http.status w). Qed.

Lemma written_WriteHeader code w : http.written (http.WriteHeader code w) = http.written w.
Proof. unfold http.WriteHeader. now destruct (http.status w). Qed.

Lemma status_delivered c data w :
  http.status w = None -> http.status (delivered c data w) = Some http.StatusOK.
Proof.
  intros H. destruct (routing.fault c) as [e|] eqn:Hf.
  - rewrite (delivered_fault c data w e Hf). unfold http.WriteHeader. now rewrite H.
  - rewrite (delivered_written c data w Hf). unfold http.Write, http.WriteHeader.
    now rewrite H.
Qed.

Lemma handler_decode_failure logger db c w rd e :
  decoded c = (rd, Some e) ->
  loginHandler logger db c w =
  (Return (Some e),
   {| logged := logged w ++ [log.Errorf (here logger c) "invalid request: %v" [Some e]];
      issued := issued w;
      Response := Response w |}).
Proof.
  unfold decoded, pair, loginHandler. intros ->. reflexivity.
Qed.

Lemma handler_fetch_failure logger db c w rd us e :
  decoded c = (rd, None) ->
  fetched (dbcontext.store db) rd = (us, Some e) ->
  loginHandler logger db c w =
  (Return (Some e),
   {| logged := logged w ++ queryLogged db (loginQuery rd) (failure (dbcontext.store db) rd)
                  ++ [log.Errorf (here logger c) "database query error: %v" [Some e]];
      issued := issued w ++ [loginQuery rd];
      Response := Response w |}).
Proof.
  unfold decoded, pair, loginHandler, fetched, failure. intros -> Ha.
  unfold mbind, M_bind. rewrite All_run, Ha. cbn.
  now rewrite <- app_assoc.
Qed.

Lemma handler_no_row logger db c w rd :
  decoded c = (rd, None) ->
  fetched (dbcontext.store db) rd = ([], None) ->
  loginHandler logger db c w =
  (Return (routing.fault c),
   {| logged := logged w ++ queryLogged db (loginQuery rd) (failure (dbcontext.store db) rd)
                  ++ [log.Errorf (here logger c) "database query error: %v" [None]];
      issued := issued w ++ [loginQuery rd];
      Response := delivered c mismatchBody (Response w) |}).
Proof.
  unfold decoded, pair, loginHandler, fetched, failure. intros -> Ha.
  unfold mbind, M_bind. rewrite All_run, Ha. cbn [length].
  change (Z.of_nat 0 <=? 0) with true. cbv iota.
  rewrite Marshal_mismatch.
  unfold mbind, M_bind, emit, emits. cbv beta.
  rewrite Write_run. cbn. now rewrite <- app_assoc.
Qed.

Lemma handler_first_row logger db c w rd u rest :
  decoded c = (rd, None) ->
  fetched (dbcontext.store db) rd = (u :: rest, None) ->
  loginHandler logger db c w =
  (Return (routing.fault c),
   {| logged := logged w ++ queryLogged db (loginQuery rd) (failure (dbcontext.store db) rd);
      issued := issued w ++ [loginQuery rd];
      Response := delivered c (success u) (Response w) |}).
Proof.
  unfold decoded, pair, loginHandler, fetched, failure, success. intros -> Ha.
  unfold mbind, M_bind. rewrite All_run, Ha.
  cbn [length lookup list_lookup].
  change (Z.of_nat (S _) <=? 0) with false. cbv iota.
  rewrite Marshal_responseData. cbn [fst].
  unfold mbind, M_bind. rewrite Write_run. reflexivity.
Qed.

(** ** The handler as a function of the request and the store *)

Lemma handler_summary logger db c w :
  loginHandler logger db c w =
  (Return (returned c (dbcontext.store db)),
   {| logged := logged w ++ lines logger db c;
      issued := issued w ++ queries c;
      Response := answered c (dbcontext.store db) (Response w) |}).
Proof.
  unfold returned, answered, queries, lines.
  destruct (decoded c) as [rd [e|]] eqn:Hd.
  - rewrite (handler_decode_failure logger db c w rd e Hd).
    now rewrite app_nil_r.
  - destruct (fetched (dbcontext.store db) rd) as [[|u rest] [e|]] eqn:Ha.
    + now rewrite (handler_fetch_failure logger db c w rd [] e Hd Ha).
    + now rewrite (handler_no_row logger db c w rd Hd Ha).
    + now rewrite (handler_fetch_failure logger db c w rd (u :: rest) e Hd Ha).
    + rewrite (handler_first_row logger db c w rd u rest Hd Ha).
      now rewrite app_nil_r.
Qed.

Lemma written_delivered c data w :
  http.written (delivered c data w)
  = http.written w
    ++ match routing.fault c with
       | Some _ => []
       | None => [routing.render (routing.writer c) data]
       end.
Proof.
  destruct (routing.fault c) as [e|] eqn:Hf.
  - rewrite (delivered_fault c data w e Hf), written_WriteHeader. now rewrite app_nil_r.
  - rewrite (delivered_written c data w Hf). apply written_Write.
Qed.

Lemma written_answered c s w :
  http.written (answered c s w) = http.written w ++ bodies c s.
Proof.
  unfold answered, bodies.
  destruct (decoded c) as [rd [e|]]; [now rewrite app_nil_r|].
  destruct (fetched s rd) as [[|u rest] [e|]];
    rewrite ?written_delivered; destruct (routing.fault c); now rewrite ?app_nil_r.
Qed.

(** The handler ends by handing a text to [c.Write] exactly when it
    leaves the response as that call does and returns its result. *)
Lemma handsOver_intro c text w r w' :
  r = routing.fault c ->
  Response w' = delivered c text (Response w) ->
  handsOver c text w (Return r, w').
Proof.
  intros -> H. unfold handsOver. rewrite Write_run. cbn [fst snd Response].
  split; [reflexivity | exact H].
Qed.

(** What the store returns for a pair, scanned. *)
Lemma fetched_serving coll rd rows :
  fetched (dbx.Serving coll rows) rd
  = DB_Login.scanAll (dbx.selects (loginQuery (pair "" "")))
      (dbx.ordered ["id"] (matching coll rd rows)).
Proof. unfold fetched. now rewrite answer_login. Qed.

Lemma failure_serving coll rd rows : failure (dbx.Serving coll rows) rd = None.
Proof. unfold failure. now rewrite answer_login. Qed.

Lemma fetched_none coll rd rows :
  matching coll rd rows = [] -> fetched (dbx.Serving coll rows) rd = ([], None).
Proof. intros H. now rewrite fetched_serving, H. Qed.

(** When every matching row can be scanned, the first user is the
    matching row of least id. *)
Lemma fetched_first coll rd rows :
  matching coll rd rows <> [] ->
  Forall scannable (matching coll rd rows) ->
  exists r d p l rest,
    r ∈ matching coll rd rows
    /\ (forall r', r' ∈ matching coll rd rows -> loguser.id r <= loguser.id r')
    /\ loguser.department r = Some d /\ loguser.purview r = Some p
    /\ loguser.logname r = Some l
    /\ fetched (dbx.Serving coll rows) rd
       = ({| DB_Login.Id := loguser.id r; DB_Login.Department := d;
             DB_Login.Purview := p; DB_Login.Logname := l |} :: rest, None).
Proof.
  intros Hne Hsc.
  destruct (dbx.ordered ["id"] (matching coll rd rows)) as [|r rest] eqn:E.
  { apply (f_equal length) in E. rewrite ordered_length in E.
    destruct (matching coll rd rows); [contradiction | discriminate E]. }
  destruct (ordered_head_least _ _ _ E) as [Hin Hleast].
  assert (Forall scannable (r :: rest)) as Hsc'.
  { rewrite <- E. now rewrite ordered_perm. }
  destruct (scanAll_scannable _ Hsc') as (users & Hs & _ & Hhead).
  destruct (Hhead r rest eq_refl) as (d & p & l & u & Hd & Hp & Hl & Hh & Hu).
  exists r, d, p, l, (drop 1 users).
  do 5 (split; [assumption|]).
  rewrite fetched_serving, E, Hs. f_equal.
  rewrite Hu in Hh |- *. cbn [head] in Hh. injection Hh as ->. reflexivity.
Qed.

(** ** The request decoder *)

Lemma lookupField_requestData key f :
  json.lookupField requestData.fields key = Some f ->
  (json.name f = "loginname" /\
   forall v s, json.assign f v s
     = {| requestData.LoginName := s; requestData.Password := requestData.Password v |})
  \/
  (json.name f = "password" /\
   forall v s, json.assign f v s
     = {| requestData.LoginName := requestData.LoginName v; requestData.Password := s |}).
Proof.
  unfold json.lookupField. intros H.
  assert (In f requestData.fields) as Hin.
  { destruct (find _ requestData.fields) as [g|] eqn:E.
    - inversion H; subst. exact (proj1 (find_some _ _ E)).
    - exact (proj1 (find_some _ _ H)). }
  simpl in Hin. destruct Hin as [<-|[<-|[]]].
  - left. split; reflexivity.
  - right. split; reflexivity.
Qed.

(** A request read as JSON whose body is an object is decoded member
    by member. *)
Lemma decoded_object c members :
  routing.reader c = routing.JSONDataReader ->
  routing.Request_Body c = routing.Structured (json.JObject members) ->
  decoded c = json.object requestData.shape members (pair "" "") None.
Proof. unfold decoded, routing.Read. now intros -> ->. Qed.

(** Members that name no field leave the decoding as it is. *)
Lemma object_unknown_ignored members : forall v saved,
  json.object requestData.shape (filter (fun m => named (fst m) <> None) members) v saved
  = json.object requestData.shape members v saved.
Proof.
  induction members as [|[k j] ms IH]; intros v saved.
  - reflexivity.
  - rewrite filter_cons. cbn [fst].
    change (json.fields requestData.shape) with requestData.fields in *.
    destruct (decide (named k <> None)) as [Hk|Hk].
    + cbn [json.object]. change (json.fields requestData.shape) with requestData.fields.
      destruct (json.lookupField requestData.fields k) as [f|]; [|apply IH].
      destruct j; apply IH.
    + cbn [json.object]. change (json.fields requestData.shape) with requestData.fields.
      unfold named in Hk.
      destruct (json.lookupField requestData.fields k) as [f|]; [|apply IH].
      exfalso. apply Hk. discriminate.
Qed.

(** When every member that names a field is textual, no error is saved. *)
Lemma object_textual_no_error members : forall v saved,
  (forall k j, (k, j) ∈ members -> named k <> None -> textual j) ->
  snd (json.object requestData.shape members v saved) = saved.
Proof.
  induction members as [|[k j] ms IH]; intros v saved H.
  - reflexivity.
  - cbn [json.object]. change (json.fields requestData.shape) with requestData.fields.
    assert (forall k0 j0, (k0, j0) ∈ ms -> named k0 <> None -> textual j0) as H'.
    { intros k0 j0 Hin. apply H. now right. }
    destruct (json.lookupField requestData.fields k) as [f|] eqn:E.
    + assert (textual j) as [->|[s ->]].
      { apply (H k j); [left|]. unfold named. rewrite E. discriminate. }
      * now apply IH.
      * now apply IH.
    + now apply IH.
Qed.

(** A field no member names keeps the value it had. *)
Lemma object_missing_LoginName members : forall v saved,
  (forall k j, (k, j) ∈ members -> named k <> Some "loginname") ->
  requestData.LoginName (fst (json.object requestData.shape members v saved))
  = requestData.LoginName v.
Proof.
  induction members as [|[k j] ms IH]; intros v saved H.
  - reflexivity.
  - cbn [json.object]. change (json.fields requestData.shape) with requestData.fields.
    assert (forall k0 j0, (k0, j0) ∈ ms -> named k0 <> Some "loginname") as H'.
    { intros k0 j0 Hin. apply (H k0 j0). now right. }
    destruct (json.lookupField requestData.fields k) as [f|] eqn:E.
    + destruct (lookupField_requestData k f E) as [[Hn _]|[_ Ha]].
      * exfalso. apply (H k j); [left|]. unfold named. rewrite E. simpl. now rewrite Hn.
      * destruct j; rewrite ?IH by exact H'; try reflexivity.
        rewrite Ha. reflexivity.
    + now apply IH.
Qed.

Lemma object_missing_Password members : forall v saved,
  (forall k j, (k, j) ∈ members -> named k <> Some "password") ->
  requestData.Password (fst (json.object requestData.shape members v saved))
  = requestData.Password v.
Proof.
  induction members as [|[k j] ms IH]; intros v saved H.
  - reflexivity.
  - cbn [json.object]. change (json.fields requestData.shape) with requestData.fields.
    assert (forall k0 j0, (k0, j0) ∈ ms -> named k0 <> Some "password") as H'.
    { intros k0 j0 Hin. apply (H k0 j0). now right. }
    destruct (json.lookupField requestData.fields k) as [f|] eqn:E.
    + destruct (lookupField_requestData k f E) as [[_ Ha]|[Hn _]].
      * destruct j; rewrite ?IH by exact H'; try reflexivity.
        rewrite Ha. reflexivity.
      * exfalso. apply (H k j); [left|]. unfold named. rewrite E. simpl. now rewrite Hn.
    + now apply IH.
Qed.

(** A pair with an empty field matches no row whose column does not
    equal the empty string. *)
Lemma empty_field_no_match coll rd rows :
  (requestData.LoginName rd = EmptyString
     /\ Forall (fun r => ~ equalUnder coll (loguser.logname r) EmptyString) rows)
  \/ (requestData.Password rd = EmptyString
     /\ Forall (fun r => ~ equalUnder coll (loguser.logpassword r) EmptyString) rows) ->
  matching coll rd rows = [].
Proof.
  unfold matching. induction rows as [|r rows IH]; intros He; [reflexivity|].
  rewrite filter_cons_False.
  - apply IH. destruct He as [[E F]|[E F]]; [left|right];
      (split; [exact E | now apply Forall_inv_tail in F]).
  - unfold matches. intros [H1 H2].
    destruct He as [[E F]|[E F]]; apply Forall_inv in F; rewrite E in *; contradiction.
Qed.

(** ** The path of a successful login *)

(** When the pair matches rows and every matching row can be scanned,
    the handler marshals the matching row of least id and hands the
    text to [c.Write]. *)
Lemma handler_success logger db c w rd coll rows :
  decoded c = (rd, None) ->
  dbcontext.store db = dbx.Serving coll rows ->
  matching coll rd rows <> [] ->
  Forall scannable (matching coll rd rows) ->
  exists r d p l,
    r ∈ matching coll rd rows
    /\ (forall r', r' ∈ matching coll rd rows -> loguser.id r <= loguser.id r')
    /\ loguser.department r = Some d /\ loguser.purview r = Some p
    /\ loguser.logname r = Some l
    /\ loginHandler logger db c w
       = (Return (routing.fault c),
          {| logged := logged w ++ queryLogged db (loginQuery rd) None;
             issued := issued w ++ [loginQuery rd];
             Response :=
               delivered c
                 (objectText [ ("id", json.encodeInt (loguser.id r));
                               ("department", json.encodeString d);
                               ("purview", json.encodeString p);
                               ("logname", json.encodeString l) ])
                 (Response w) |}).
Proof.
  intros Hd Hs Hne Hsc.
  destruct (fetched_first coll rd rows Hne Hsc)
    as (r & d & p & l & rest & Hin & Hleast & Hdep & Hpur & Hlog & Hf).
  exists r, d, p, l. do 5 (split; [assumption|]).
  rewrite <- Hs in Hf.
  rewrite (handler_first_row logger db c w rd _ rest Hd Hf).
  rewrite Hs, failure_serving, success_text. reflexivity.
Qed.

Lemma readString_encodeString s : wire.readString (json.encodeString s) = Some (wire.coerce s).
Proof. apply readString_encodeStringWith. Qed.

(** * The claims *)

(** C1. Under the wiring of main, where the content negotiator has set
    the JSON data writer, a request that decodes to a credential pair no
    stored row matches is answered over a working connection with one
    write and the status of any successful write, [StatusOK] when none
    was sent before. The handler hands the credential-mismatch body, the
    object with the one member [error], to [c.Write]; what is written is
    not that object but the object as a JSON string: its quotes escaped,
    quotes around it and a newline after it. *)
Theorem mismatch_body_encoded_twice logger db c w rd coll rows :
  decoded c = (rd, None) ->
  dbcontext.store db = dbx.Serving coll rows ->
  matching coll rd rows = [] ->
  routing.fault c = None ->
  routing.writer c = routing.JSONDataWriter ->
  exists w',
    loginHandler logger db c w = (Return None, w')
    /\ handsOver c mismatchBody w (loginHandler logger db c w)
    /\ http.written (Response w') = http.written (Response w) ++ [mismatchBodyQuoted]
    /\ mismatchBodyQuoted <> mismatchBody
    /\ (exists t, mismatchBodyQuoted = (t ++ json.newline)%string
                  /\ wire.readString t = Some mismatchBody)
    /\ (http.status (Response w) = None ->
        http.status (Response w') = Some http.StatusOK /\ 200 <= http.StatusOK < 300).
Proof.
  intros Hd Hs Hm Hf Hw.
  assert (fetched (dbcontext.store db) rd = ([], None)) as Ha.
  { rewrite Hs. now apply fetched_none. }
  rewrite (handler_no_row logger db c w rd Hd Ha), Hf.
  eexists. split; [reflexivity|]. cbn [Response].
  split; [now apply handsOver_intro|].
  split.
  { rewrite written_delivered, Hf, Hw. cbn [routing.render].
    now rewrite EncodeString_mismatchBody. }
  split; [intros H; vm_compute in H; discriminate H|].
  split.
  { exists (json.encodeStringWith false mismatchBody). split; [vm_compute; reflexivity|].
    vm_compute. reflexivity. }
  intros Hn. split; [now apply status_delivered | unfold http.StatusOK; lia].
Qed.

(** The scenario of the spec: alice with a wrong password. *)
Lemma mismatch_body_encoded_twice_witness :
  exists w',
    loginHandler root (serving [alice]) (request (credentials "alice" "wrong")) quiet
    = (Return None, w')
    /\ http.written (Response w') = [mismatchBodyQuoted]
    /\ mismatchBodyQuoted <> mismatchBody
    /\ http.status (Response w') = Some 200.
Proof.
  destruct (mismatch_body_encoded_twice root (serving [alice])
              (request (credentials "alice" "wrong")) quiet (pair "alice" "wrong")
              dbx.binary [alice])
    as (w' & H1 & _ & H3 & H4 & _ & H6); try reflexivity.
  exists w'. split; [exact H1|]. split; [exact H3|]. split; [exact H4|].
  apply H6. reflexivity.
Defined.

(** C2, as amended. A request whose credential pair matches exactly one
    stored row, a row whose id a Go int holds and whose department,
    purview and logname are not NULL, ends with the handler handing to
    [c.Write] the text of a JSON object with the members id, department,
    purview and logname, in this order: the id reads as the row's id,
    and each string reads as the row's column, with U+FFFD for every
    byte that is not well-formed UTF-8. *)
Theorem single_match_projection logger db c w rd coll rows r :
  decoded c = (rd, None) ->
  dbcontext.store db = dbx.Serving coll rows ->
  matching coll rd rows = [r] ->
  scannable r ->
  exists ti td tp tl,
    handsOver c
      (objectText [("id", ti); ("department", td); ("purview", tp); ("logname", tl)])
      w (loginHandler logger db c w)
    /\ wire.readInt ti = Some (loguser.id r)
    /\ wire.readString td = wire.coerce <$> loguser.department r
    /\ wire.readString tp = wire.coerce <$> loguser.purview r
    /\ wire.readString tl = wire.coerce <$> loguser.logname r.
Proof.
  intros Hd Hs Hm Hr.
  destruct (handler_success logger db c w rd coll rows Hd Hs)
    as (r0 & d & p & l & Hin & _ & Hdep & Hpur & Hlog & Hrun).
  { rewrite Hm. discriminate. }
  { rewrite Hm. now constructor. }
  rewrite Hm in Hin. apply list_elem_of_singleton in Hin. subst r0.
  exists (json.encodeInt (loguser.id r)), (json.encodeString d),
    (json.encodeString p), (json.encodeString l).
  rewrite Hrun, Hdep, Hpur, Hlog.
  split; [now apply handsOver_intro|].
  split; [apply readInt_encodeInt|].
  repeat split; apply readString_encodeString.
Qed.

(** The scenario of the spec: alice with her password. *)
Lemma single_match_projection_witness :
  exists ti td tp tl,
    handsOver (request (credentials "alice" "secret"))
      (objectText [("id", ti); ("department", td); ("purview", tp); ("logname", tl)])
      quiet
      (loginHandler root (serving [keyless; alice]) (request (credentials "alice" "secret"))
         quiet)
    /\ wire.readInt ti = Some 1
    /\ wire.readString td = Some "eng"
    /\ wire.readString tp = Some "admin"
    /\ wire.readString tl = Some "alice".
Proof.
  apply (single_match_projection root (serving [keyless; alice])
           (request (credentials "alice" "secret")) quiet (pair "alice" "secret")
           dbx.binary [keyless; alice] alice); try reflexivity.
  unfold scannable. cbn. split; [lia|]. repeat split; eexists; reflexivity.
Defined.

(** C2, as stated, fails: the one row the pair matches holds NULL in its
    department, which the field of type string cannot take; the scan
    fails, the handler returns its error and writes no body. *)
Lemma single_match_null_department_no_body :
  decoded (request (credentials "carol" "pw")) = (pair "carol" "pw", None)
  /\ matching dbx.binary (pair "carol" "pw") [alice; carol] = [carol]
  /\ fst (loginHandler root (serving [alice; carol]) (request (credentials "carol" "pw")) quiet)
     = Return (Some (DB_Login.ScanError ["id"; "department"; "purview"; "logname"]
                       "department" "converting NULL to string is unsupported"))
  /\ http.written
       (Response (snd (loginHandler root (serving [alice; carol])
                         (request (credentials "carol" "pw")) quiet)))
     = [].
Proof. repeat split; vm_compute; reflexivity. Qed.






(** C5. When the store fails the query, the handler writes nothing to the
    response, neither projection nor mismatch body; it returns the
    store's error, and it has sent the one query and no second one. *)
Theorem query_error_no_body logger db c w rd e :
  decoded c = (rd, None) ->
  dbx.answer (dbcontext.store db) (loginQuery rd) = inl e ->
  exists w',
    loginHandler logger db c w = (Return (Some e), w')
    /\ Response w' = Response w
    /\ issued w' = (issued w ++ [loginQuery rd])%list.
Proof.
  intros Hd Ha.
  assert (fetched (dbcontext.store db) rd = ([], Some e)) as Hf.
  { unfold fetched. now rewrite Ha. }
  rewrite (handler_fetch_failure logger db c w rd [] e Hd Hf).
  eexists. split; [reflexivity|]. split; reflexivity.
Qed.

(** A store out of reach. *)
Lemma query_error_no_body_witness :
  exists w',
    loginHandler root (serverDB root (dbx.Unavailable refused) 30000)
      (request (credentials "alice" "secret")) quiet
    = (Return (Some refused), w')
    /\ Response w' = Response quiet
    /\ issued w' = [loginQuery (pair "alice" "secret")].
Proof.
  apply (query_error_no_body root (serverDB root (dbx.Unavailable refused) 30000)
           (request (credentials "alice" "secret")) quiet (pair "alice" "secret") refused);
    reflexivity.
Defined.



(** C7, as amended. A body read as JSON that is an object in which every
    member naming one of the two fields holds a string or null decodes
    to a credential pair: the members naming no field are ignored, and a
    field no member names is the empty string. *)
Theorem decode_object_fields c members :
  routing.reader c = routing.JSONDataReader ->
  routing.Request_Body c = routing.Structured (json.JObject members) ->
  (forall k j, (k, j) ∈ members -> named k <> None -> textual j) ->
  exists rd,
    decoded c = (rd, None)
    /\ (forall c',
          routing.reader c' = routing.JSONDataReader ->
          routing.Request_Body c'
          = routing.Structured
              (json.JObject (filter (fun m => named (fst m) <> None) members)) ->
          decoded c' = (rd, None))
    /\ ((forall k j, (k, j) ∈ members -> named k <> Some "loginname") ->
        requestData.LoginName rd = EmptyString)
    /\ ((forall k j, (k, j) ∈ members -> named k <> Some "password") ->
        requestData.Password rd = EmptyString).
Proof.
  intros Hr Hb Ht.
  pose proof (decoded_object c members Hr Hb) as Hd.
  pose proof (object_textual_no_error members (pair "" "") None Ht) as Hn.
  pose proof (object_missing_LoginName members (pair "" "") None) as Hl.
  pose proof (object_missing_Password members (pair "" "") None) as Hp.
  destruct (json.object requestData.shape members (pair "" "") None) as [rd0 e0] eqn:E.
  cbn [fst snd] in Hn, Hl, Hp. subst e0.
  exists rd0. split; [exact Hd|]. split; [|split].
  - intros c' Hr' Hb'. rewrite (decoded_object c' _ Hr' Hb').
    rewrite object_unknown_ignored. exact E.
  - exact Hl.
  - exact Hp.
Qed.

(** A body with the login name, no password and a member of its own. *)
Lemma decode_object_fields_witness :
  exists rd,
    decoded (request (json.JObject [("loginname", json.JString "alice");
                                    ("remember", json.JBool true)]))
    = (rd, None)
    /\ requestData.Password rd = EmptyString.
Proof.
  destruct (decode_object_fields
              (request (json.JObject [("loginname", json.JString "alice");
                                      ("remember", json.JBool true)]))
              [("loginname", json.JString "alice"); ("remember", json.JBool true)])
    as (rd & H1 & _ & _ & H4).
  - reflexivity.
  - reflexivity.
  - intros k j Hin Hn.
    apply elem_of_cons in Hin as [Hin|Hin].
    + inversion Hin; subst. right. exists "alice". reflexivity.
    + apply elem_of_cons in Hin as [Hin|Hin].
      * inversion Hin; subst. exfalso. apply Hn. reflexivity.
      * inversion Hin.
  - exists rd. split; [exact H1|]. apply H4.
    intros k j Hin.
    apply elem_of_cons in Hin as [Hin|Hin].
    + inversion Hin; subst. discriminate.
    + apply elem_of_cons in Hin as [Hin|Hin].
      * inversion Hin; subst. discriminate.
      * inversion Hin.
Defined.

(** C7, as stated, fails: a body that is valid JSON, with a number where
    the login name goes, is rejected by the decoder; the handler returns
    the error and no credential pair comes out of it. *)
Lemma number_for_loginname_rejected :
  routing.reader (request (json.JObject [("loginname", json.JNumber "5")]))
  = routing.JSONDataReader
  /\ decoded (request (json.JObject [("loginname", json.JNumber "5")]))
     = (pair "" "",
        Some (json.UnmarshalFieldError "number" "requestData" "loginname" "string"))
  /\ fst (loginHandler root (serving [alice])
            (request (json.JObject [("loginname", json.JNumber "5")])) quiet)
     = Return (Some (json.UnmarshalFieldError "number" "requestData" "loginname" "string"))
  /\ issued (snd (loginHandler root (serving [alice])
                    (request (json.JObject [("loginname", json.JNumber "5")])) quiet))
     = [].
Proof. repeat split; reflexivity. Qed.

(** C8, as amended. A credential pair with an empty login name, against
    a store none of whose rows has a logname its collation takes for
    equal to the empty string, or with an empty password, against a
    store none of whose rows has such a logpassword, matches no row, and
    the handler ends by handing the credential-mismatch body to
    [c.Write]. *)
Theorem empty_credential_mismatch logger db c w rd coll rows :
  decoded c = (rd, None) ->
  dbcontext.store db = dbx.Serving coll rows ->
  (requestData.LoginName rd = EmptyString
     /\ Forall (fun r => ~ equalUnder coll (loguser.logname r) EmptyString) rows)
  \/ (requestData.Password rd = EmptyString
     /\ Forall (fun r => ~ equalUnder coll (loguser.logpassword r) EmptyString) rows) ->
  matching coll rd rows = []
  /\ handsOver c mismatchBody w (loginHandler logger db c w).
Proof.
  intros Hd Hs He.
  pose proof (empty_field_no_match coll rd rows He) as Hm.
  split; [exact Hm|].
  assert (fetched (dbcontext.store db) rd = ([], None)) as Ha.
  { rewrite Hs. now apply fetched_none. }
  rewrite (handler_no_row logger db c w rd Hd Ha).
  now apply handsOver_intro.
Qed.

(** An empty password against a store whose rows all have one. *)
Lemma empty_credential_mismatch_witness :
  matching dbx.binary (pair "alice" "") [alice; alice7] = []
  /\ handsOver (request (credentials "alice" "")) mismatchBody quiet
       (loginHandler root (serving [alice; alice7]) (request (credentials "alice" "")) quiet).
Proof.
  apply (empty_credential_mismatch root (serving [alice; alice7])
           (request (credentials "alice" "")) quiet (pair "alice" "") dbx.binary
           [alice; alice7]);
    try reflexivity.
  right. split; [reflexivity|].
  repeat constructor; cbn; discriminate.
Defined.

(** C8, as stated, fails: an empty password matches the row stored with
    an empty password; the handler hands that row's object to [c.Write],
    and the response is not the one the credential-mismatch body gives. *)
Lemma empty_password_matches_keyless :
  requestData.Password (pair "bob" "") = EmptyString
  /\ decoded (request (credentials "bob" "")) = (pair "bob" "", None)
  /\ matching dbx.binary (pair "bob" "") [alice; keyless] = [keyless]
  /\ handsOver (request (credentials "bob" ""))
       (objectText [ ("id", "2");
                     ("department", (json.quote ++ "ops" ++ json.quote)%string);
                     ("purview", (json.quote ++ "user" ++ json.quote)%string);
                     ("logname", (json.quote ++ "bob" ++ json.quote)%string) ])
       quiet
       (loginHandler root (serving [alice; keyless]) (request (credentials "bob" "")) quiet)
  /\ Response (snd (loginHandler root (serving [alice; keyless])
                      (request (credentials "bob" "")) quiet))
     <> Response (snd (routing.Write (request (credentials "bob" "")) mismatchBody quiet)).
Proof.
  split; [reflexivity|]. split; [reflexivity|]. split; [reflexivity|].
  split; [split; vm_compute; reflexivity|].
  vm_compute. intros H. discriminate H.
Qed.

(** C9. Marshalling the success response and the error response never
    fails, whatever their fields hold. So the handler never leaves by a
    branch for a failed marshal: the error it returns is the decoder's,
    the store's, the one of a row that could not be scanned or the one
    of the write to the response, and with the query log function of
    main no line it logs is the line of a failed marshal. The handler
    always returns. *)
Theorem encode_error_unreachable logger ql s t c w :
  (forall v, snd (json.Marshal (responseData.reflect v)) = None)
  /\ (forall v, snd (json.Marshal (ErrorResponseData.reflect v)) = None)
  /\ fst (loginHandler logger (serverDB ql s t) c w)
     = Return match decoded c with
              | (_, Some e) => Some e
              | (rd, None) =>
                match dbx.answer s (loginQuery rd) with
                | inl e => Some e
                | inr rows =>
                  match DB_Login.scanAll (dbx.selects (loginQuery rd)) rows with
                  | (_, Some e) => Some e
                  | (_, None) => routing.fault c
                  end
                end
              end
  /\ exists new,
       logged (snd (loginHandler logger (serverDB ql s t) c w)) = (logged w ++ new)%list
       /\ Forall (fun e => log.format e <> "response format to json error: %v") new.
Proof.
  split; [intros v; now rewrite Marshal_responseData|].
  split; [intros v; now rewrite Marshal_ErrorResponseData|].
  rewrite handler_summary. cbn [fst snd logged].
  split.
  { unfold returned, fetched. cbn [serverDB dbcontext.store].
    destruct (decoded c) as [rd [e|]]; [reflexivity|].
    destruct (dbx.answer s (loginQuery rd)) as [e|rows]; reflexivity. }
  eexists. split; [reflexivity|].
  unfold lines, queryLogged, serverDB, logDBQuery.
  cbn [dbcontext.queryLog dbcontext.store dbcontext.elapsed].
  destruct (decoded c) as [rd [e|]].
  - repeat constructor. discriminate.
  - destruct (failure s rd) as [e0|]; destruct (fetched s rd) as [[|u rest] [e|]];
      cbn [app]; repeat constructor; discriminate.
Qed.

(** C10, as amended. Two calls of the handler on requests with the same
    method, the same content type and the same body, as each reader
    meets it, over connections with the same data writer and the same
    fault, against stores with the same contents, return the same error,
    add the same data to their responses and send the same queries,
    whatever the loggers, the log functions, the time the query takes
    and the worlds they start from are; a call leaves nothing behind
    that changes what the next call returns. *)
Theorem handler_deterministic logger1 logger2 db1 db2 c1 c2 w1 w2 :
  routing.Request_Method c1 = routing.Request_Method c2 ->
  routing.Request_ContentType c1 = routing.Request_ContentType c2 ->
  routing.Request_Body c1 = routing.Request_Body c2 ->
  routing.Request_XML c1 = routing.Request_XML c2 ->
  routing.Request_Form c1 = routing.Request_Form c2 ->
  routing.writer c1 = routing.writer c2 ->
  routing.fault c1 = routing.fault c2 ->
  dbcontext.store db1 = dbcontext.store db2 ->
  fst (loginHandler logger1 db1 c1 w1) = fst (loginHandler logger2 db2 c2 w2)
  /\ (exists data qs,
        http.written (Response (snd (loginHandler logger1 db1 c1 w1)))
        = (http.written (Response w1) ++ data)%list
        /\ http.written (Response (snd (loginHandler logger2 db2 c2 w2)))
           = (http.written (Response w2) ++ data)%list
        /\ issued (snd (loginHandler logger1 db1 c1 w1)) = (issued w1 ++ qs)%list
        /\ issued (snd (loginHandler logger2 db2 c2 w2)) = (issued w2 ++ qs)%list)
  /\ fst (loginHandler logger2 db2 c2 (snd (loginHandler logger1 db1 c1 w1)))
     = fst (loginHandler logger2 db2 c2 w2).
Proof.
  intros Hm Ht Hb Hx Hfo Hw Hf Hs.
  assert (decoded c1 = decoded c2) as Hd.
  { unfold decoded, routing.Read, routing.reader. now rewrite Hm, Ht, Hb, Hx, Hfo. }
  assert (returned c1 (dbcontext.store db1) = returned c2 (dbcontext.store db2)) as Hr.
  { unfold returned. now rewrite Hd, Hf, Hs. }
  assert (bodies c1 (dbcontext.store db1) = bodies c2 (dbcontext.store db2)) as Hbo.
  { unfold bodies. now rewrite Hd, Hf, Hs, Hw. }
  assert (queries c1 = queries c2) as Hq.
  { unfold queries. now rewrite Hd. }
  rewrite !handler_summary. cbn [fst snd Response issued].
  split; [now rewrite Hr|]. split; [|reflexivity].
  exists (bodies c1 (dbcontext.store db1)), (queries c1).
  rewrite !written_answered, Hbo, Hq. repeat split; reflexivity.
Qed.

(** The same request twice, under two loggers, against one store reached
    through two handles, from two worlds. *)
Lemma handler_deterministic_witness :
  fst (loginHandler root (serving [alice]) (request (credentials "alice" "secret")) quiet)
  = fst (loginHandler other
           {| dbcontext.store := dbx.Serving dbx.binary [alice]; dbcontext.elapsed := 250;
              dbcontext.queryLog := None |}
           (request (credentials "alice" "secret")) busy).
Proof.
  apply (handler_deterministic root other (serving [alice])
           {| dbcontext.store := dbx.Serving dbx.binary [alice]; dbcontext.elapsed := 250;
              dbcontext.queryLog := None |}
           (request (credentials "alice" "secret")) (request (credentials "alice" "secret"))
           quiet busy); reflexivity.
Defined.

(** C10, as stated, fails: the same body sent twice against the same
    store, once with the content type of JSON and once with none. The
    first is read as JSON and alice is logged in; the second is read as
    a form, which the body is not, so both credentials are empty and the
    answer is the credential mismatch. *)
Lemma content_type_changes_answer :
  routing.Request_Body (request (credentials "alice" "secret"))
  = routing.Request_Body (untyped (credentials "alice" "secret"))
  /\ routing.Request_XML (request (credentials "alice" "secret"))
     = routing.Request_XML (untyped (credentials "alice" "secret"))
  /\ routing.Request_Form (request (credentials "alice" "secret"))
     = routing.Request_Form (untyped (credentials "alice" "secret"))
  /\ decoded (request (credentials "alice" "secret")) = (pair "alice" "secret", None)
  /\ decoded (untyped (credentials "alice" "secret")) = (pair "" "", None)
  /\ http.written
       (Response (snd (loginHandler root (serving [alice])
                         (untyped (credentials "alice" "secret")) quiet)))
     = [mismatchBodyQuoted]
  /\ http.written
       (Response (snd (loginHandler root (serving [alice])
                         (request (credentials "alice" "secret")) quiet)))
     <> http.written
          (Response (snd (loginHandler root (serving [alice])
                            (untyped (credentials "alice" "secret")) quiet))).
Proof.
  do 5 (split; [reflexivity|]).
  split; [vm_compute; reflexivity|].
  vm_compute. intros H. discriminate H.
Qed.

(** * Further properties of the handler *)

(** X1. A failure of the store is logged twice under main's wiring, both
    times at error level and with the store's error: once by the query
    log function, with the query, and once by the handler, bound to the
    request; the handler then returns that error. *)
Theorem store_failure_logged_twice logger ql s t c w rd e :
  decoded c = (rd, None) ->
  dbx.answer s (loginQuery rd) = inl e ->
  exists w',
    loginHandler logger (serverDB ql s t) c w = (Return (Some e), w')
    /\ logged w'
       = logged w
         ++ [ log.Errorf (log.With ql None [("sql", log.KSQL (loginQuery rd))])
                "DB query error: %v" [Some e];
              log.Errorf (log.With logger (Some (routing.Request_Context c)) [])
                "database query error: %v" [Some e] ].
Proof.
  intros Hd Ha.
  assert (fetched (dbcontext.store (serverDB ql s t)) rd = ([], Some e)) as Hf.
  { unfold fetched. cbn [serverDB dbcontext.store]. now rewrite Ha. }
  rewrite (handler_fetch_failure logger (serverDB ql s t) c w rd [] e Hd Hf).
  unfold failure. cbn [serverDB dbcontext.store]. rewrite Ha.
  eexists. split; reflexivity.
Qed.

Lemma store_failure_logged_twice_witness :
  exists w',
    loginHandler root (serverDB root (dbx.Unavailable refused) 30000)
      (request (credentials "alice" "secret")) quiet
    = (Return (Some refused), w')
    /\ length (logged w') = 2%nat
    /\ Forall (fun l => log.level l = log.LevelError /\ log.args l = [Some refused]) (logged w').
Proof.
  destruct (store_failure_logged_twice root root (dbx.Unavailable refused) 30000
              (request (credentials "alice" "secret")) quiet (pair "alice" "secret") refused)
    as (w' & H1 & H2); try reflexivity.
  exists w'. split; [exact H1|]. rewrite H2. split; [reflexivity|].
  repeat constructor.
Defined.

(** X2. A credential mismatch is logged by the handler as an error: one
    line at error level under the format of a database query error, with
    a nil error as its argument, after the info line of the query that
    succeeded. *)
Theorem mismatch_logged_as_query_error logger ql coll rows t c w rd :
  decoded c = (rd, None) ->
  matching coll rd rows = [] ->
  logged (snd (loginHandler logger (serverDB ql (dbx.Serving coll rows) t) c w))
  = logged w
    ++ [ log.Info (log.With ql None [("duration", log.KInt t);
                                     ("sql", log.KSQL (loginQuery rd))])
           "DB query successful";
         log.Errorf (log.With logger (Some (routing.Request_Context c)) [])
           "database query error: %v" [None] ].
Proof.
  intros Hd Hm.
  assert (fetched (dbcontext.store (serverDB ql (dbx.Serving coll rows) t)) rd = ([], None))
    as Ha.
  { cbn [serverDB dbcontext.store]. now apply fetched_none. }
  rewrite (handler_no_row logger _ c w rd Hd Ha).
  cbn [serverDB dbcontext.store]. rewrite failure_serving. reflexivity.
Qed.

Lemma mismatch_logged_as_query_error_witness :
  exists info line,
    logged (snd (loginHandler root (serving [alice])
                   (request (credentials "alice" "wrong")) quiet))
    = [info; line]
    /\ log.level line = log.LevelError
    /\ log.format line = "database query error: %v"
    /\ log.args line = [None].
Proof.
  pose proof (mismatch_logged_as_query_error root root dbx.binary [alice] 3
                (request (credentials "alice" "wrong")) quiet (pair "alice" "wrong")
                eq_refl eq_refl) as H.
  eexists _, _. split; [exact H|]. repeat split.
Defined.

(** X3. When the write to the response fails, the handler returns the
    error of the write; unlike the errors of the decoder and of the
    store, this one is written to no log line. The one query has been
    sent by then. *)
Theorem write_error_returned_unlogged logger ql coll rows t c w rd e :
  decoded c = (rd, None) ->
  Forall scannable (matching coll rd rows) ->
  routing.fault c = Some e ->
  exists w' new,
    loginHandler logger (serverDB ql (dbx.Serving coll rows) t) c w = (Return (Some e), w')
    /\ issued w' = issued w ++ [loginQuery rd]
    /\ logged w' = logged w ++ new
    /\ Forall (fun l => Some e ∉ log.args l) new.
Proof.
  intros Hd Hsc Hf.
  destruct (matching coll rd rows) as [|r0 rest0] eqn:Hm.
  - assert (fetched (dbcontext.store (serverDB ql (dbx.Serving coll rows) t)) rd
            = ([], None)) as Ha.
    { cbn [serverDB dbcontext.store]. now apply fetched_none. }
    rewrite (handler_no_row logger _ c w rd Hd Ha), Hf.
    cbn [serverDB dbcontext.store]. rewrite failure_serving.
    eexists _, _. split; [reflexivity|]. split; [reflexivity|]. split; [reflexivity|].
    unfold queryLogged, logDBQuery. cbn.
    repeat constructor; cbn; intros H.
    + apply elem_of_nil in H. exact H.
    + apply list_elem_of_singleton in H. discriminate.
  - destruct (handler_success logger (serverDB ql (dbx.Serving coll rows) t) c w rd coll rows
                Hd eq_refl)
      as (r & d & p & l & _ & _ & _ & _ & _ & Hrun).
    { rewrite Hm. discriminate. }
    { now rewrite Hm. }
    rewrite Hrun, Hf.
    eexists _, _. split; [reflexivity|]. split; [reflexivity|]. split; [reflexivity|].
    unfold queryLogged, logDBQuery. cbn.
    repeat constructor; cbn; intros H. apply elem_of_nil in H. exact H.
Qed.

Lemma write_error_returned_unlogged_witness :
  exists w',
    loginHandler root (serving [alice]) (hungUp (credentials "alice" "secret")) quiet
    = (Return (Some (errorString "write: broken pipe")), w')
    /\ issued w' = [loginQuery (pair "alice" "secret")].
Proof.
  destruct (write_error_returned_unlogged root root dbx.binary [alice] 3
              (hungUp (credentials "alice" "secret"))
              quiet (pair "alice" "secret") (errorString "write: broken pipe")
              eq_refl)
    as (w' & new & H1 & H2 & _).
  - repeat constructor; cbn; try lia; eexists; reflexivity.
  - reflexivity.
  - exists w'. split; [exact H1 | exact H2].
Defined.

(** X4. The handler never stops with an index out of range: [users[0]]
    is read only when the answer has a row, so every call returns,
    whatever the request, the store and the handle are. *)
Theorem handler_never_panics logger db c w :
  exists r, fst (loginHandler logger db c w) = Return r.
Proof. rewrite handler_summary. eexists. reflexivity. Qed.

(** ** The order of the rows in the table *)

Lemma id_key_of_NoDup (rows : list loguser.Row) :
  NoDup (loguser.id <$> rows) ->
  forall a b, a ∈ rows -> b ∈ rows -> loguser.id a = loguser.id b -> a = b.
Proof.
  induction rows as [|x rows IH]; intros Hnd a b Ha Hb E.
  - apply elem_of_nil in Ha. contradiction.
  - rewrite fmap_cons in Hnd. apply NoDup_cons in Hnd as [Hx Hnd].
    apply elem_of_cons in Ha as [->|Ha]; apply elem_of_cons in Hb as [->|Hb].
    + reflexivity.
    + exfalso. apply Hx. rewrite E. apply list_elem_of_fmap. now exists b.
    + exfalso. apply Hx. rewrite <- E. apply list_elem_of_fmap. now exists a.
    + now apply IH.
Qed.

Lemma sorted_perm_eq (l1 : list loguser.Row) : forall l2,
  StronglySorted id_le l1 -> StronglySorted id_le l2 ->
  (forall a b, a ∈ l1 -> b ∈ l1 -> loguser.id a = loguser.id b -> a = b) ->
  l1 ≡ₚ l2 -> l1 = l2.
Proof.
  induction l1 as [|a l1 IH]; intros l2 S1 S2 K P.
  - symmetry. now apply Permutation_nil.
  - destruct l2 as [|b l2].
    { symmetry in P. now apply Permutation_nil in P. }
    apply StronglySorted_inv in S1 as [S1 A1].
    apply StronglySorted_inv in S2 as [S2 A2].
    rewrite Forall_forall in A1, A2.
    assert (b ∈ a :: l1) as Hb by (rewrite P; left).
    assert (a ∈ b :: l2) as Ha by (rewrite <- P; left).
    assert (loguser.id a <= loguser.id b) as Hab.
    { apply elem_of_cons in Hb as [->|Hb]; [lia | exact (A1 b Hb)]. }
    assert (loguser.id b <= loguser.id a) as Hba.
    { apply elem_of_cons in Ha as [->|Ha]; [lia | exact (A2 a Ha)]. }
    assert (a = b) as <-.
    { apply K; [left | exact Hb | lia]. }
    f_equal. apply IH; [exact S1 | exact S2 | | now apply Permutation_cons_inv in P].
    intros x y Hx Hy. apply K; now right.
Qed.

Lemma answer_login_perm coll rd rows rows' :
  rows ≡ₚ rows' ->
  NoDup (loguser.id <$> rows) ->
  dbx.answer (dbx.Serving coll rows) (loginQuery rd)
  = dbx.answer (dbx.Serving coll rows') (loginQuery rd).
Proof.
  intros P Hnd. rewrite !answer_login. f_equal.
  apply sorted_perm_eq; [apply ordered_sorted | apply ordered_sorted | |].
  - intros a b Ha Hb. rewrite ordered_perm in Ha, Hb.
    unfold matching in Ha, Hb.
    apply list_elem_of_filter in Ha as [_ Ha]. apply list_elem_of_filter in Hb as [_ Hb].
    now apply (id_key_of_NoDup rows Hnd).
  - rewrite !ordered_perm. unfold matching. now rewrite P.
Qed.

(** X5. When the ids of the stored rows are distinct, the order in which
    the table holds the rows does not matter: against two stores with
    the same rows in different orders the handler returns the same
    error and leaves the same response. *)
Theorem row_order_irrelevant logger db db' c w coll rows rows' :
  dbcontext.store db = dbx.Serving coll rows ->
  dbcontext.store db' = dbx.Serving coll rows' ->
  rows ≡ₚ rows' ->
  NoDup (loguser.id <$> rows) ->
  fst (loginHandler logger db c w) = fst (loginHandler logger db' c w)
  /\ Response (snd (loginHandler logger db c w))
     = Response (snd (loginHandler logger db' c w)).
Proof.
  intros Hs Hs' P Hnd. rewrite !handler_summary. cbn [fst snd Response].
  unfold returned, answered, fetched. rewrite Hs, Hs'.
  destruct (decoded c) as [rd [e|]]; [split; reflexivity|].
  rewrite (answer_login_perm coll rd rows rows' P Hnd). split; reflexivity.
Qed.

Lemma row_order_irrelevant_witness :
  fst (loginHandler root (serving [alice7; keyless; alice])
         (request (credentials "bob" "")) quiet)
  = fst (loginHandler root (serving [alice; alice7; keyless])
           (request (credentials "bob" "")) quiet)
  /\ Response (snd (loginHandler root (serving [alice7; keyless; alice])
                      (request (credentials "bob" "")) quiet))
     = Response (snd (loginHandler root (serving [alice; alice7; keyless])
                        (request (credentials "bob" "")) quiet)).
Proof.
  apply (row_order_irrelevant root (serving [alice7; keyless; alice])
           (serving [alice; alice7; keyless]) (request (credentials "bob" "")) quiet
           dbx.binary [alice7; keyless; alice] [alice; alice7; keyless]).
  - reflexivity.
  - reflexivity.
  - change [alice7; keyless; alice] with ([alice7; keyless] ++ [alice]).
    apply Permutation_app_comm.
  - repeat constructor; cbn; intros H;
      repeat (apply elem_of_cons in H as [H|H]; [discriminate|]);
      apply elem_of_nil in H; exact H.
Defined.

(** ** Fields the encoder leaves as they are *)

Lemma stringBody_plain h s : plain s = true -> json.stringBody h json.Look s = s.
Proof.
  induction s as [|a s IH]; intros H; [reflexivity|].
  cbn [plain] in H. apply andb_true_iff in H as [Ha Hs].
  cbn [json.stringBody].
  assert ((N_of_ascii a <? 128)%N = true) as Hlt.
  { unfold json.htmlSafe in Ha. rewrite !andb_true_iff in Ha. tauto. }
  rewrite Hlt, Ha. cbn [orb]. f_equal. now apply IH.
Qed.

Lemma encodeString_plain s :
  plain s = true -> json.encodeString s = (json.quote ++ s ++ json.quote)%string.
Proof.
  intros H. unfold json.encodeString, json.encodeStringWith. now rewrite stringBody_plain.
Qed.

(** X6. When the department, the purview and the login name of the row
    that answers the request hold only ASCII bytes from the space on,
    without the double quote, the backslash, the ampersand and the angle
    brackets, the object the handler hands to [c.Write] carries each of
    them as it is stored, between double quotes, after the id in
    decimal. *)
Theorem plain_fields_verbatim logger db c w rd coll rows r d p l :
  decoded c = (rd, None) ->
  dbcontext.store db = dbx.Serving coll rows ->
  matching coll rd rows = [r] ->
  - 2 ^ 63 <= loguser.id r < 2 ^ 63 ->
  loguser.department r = Some d ->
  loguser.purview r = Some p ->
  loguser.logname r = Some l ->
  plain d = true ->
  plain p = true ->
  plain l = true ->
  exists ti,
    handsOver c
      (objectText
         [ ("id", ti);
           ("department", (json.quote ++ d ++ json.quote)%string);
           ("purview", (json.quote ++ p ++ json.quote)%string);
           ("logname", (json.quote ++ l ++ json.quote)%string) ])
      w (loginHandler logger db c w)
    /\ wire.readInt ti = Some (loguser.id r).
Proof.
  intros Hd Hs Hm Hid Hdep Hpur Hlog Hp1 Hp2 Hp3.
  destruct (handler_success logger db c w rd coll rows Hd Hs)
    as (r0 & d0 & p0 & l0 & Hin & _ & Hdep0 & Hpur0 & Hlog0 & Hrun).
  { rewrite Hm. discriminate. }
  { rewrite Hm. constructor; [|constructor]. unfold scannable.
    rewrite Hdep, Hpur, Hlog. split; [exact Hid|]. repeat split; eexists; reflexivity. }
  rewrite Hm in Hin. apply list_elem_of_singleton in Hin. subst r0.
  assert (d0 = d) as -> by congruence.
  assert (p0 = p) as -> by congruence.
  assert (l0 = l) as -> by congruence.
  exists (json.encodeInt (loguser.id r)).
  split; [|apply readInt_encodeInt].
  rewrite Hrun, !encodeString_plain by assumption.
  now apply handsOver_intro.
Qed.

Lemma plain_fields_verbatim_witness :
  exists ti,
    handsOver (request (credentials "alice" "secret"))
      (objectText [ ("id", ti);
                    ("department", (json.quote ++ "eng" ++ json.quote)%string);
                    ("purview", (json.quote ++ "admin" ++ json.quote)%string);
                    ("logname", (json.quote ++ "alice" ++ json.quote)%string) ])
      quiet
      (loginHandler root (serving [alice]) (request (credentials "alice" "secret")) quiet)
    /\ wire.readInt ti = Some 1.
Proof.
  apply (plain_fields_verbatim root (serving [alice]) (request (credentials "alice" "secret"))
           quiet (pair "alice" "secret") dbx.binary [alice] alice "eng" "admin" "alice");
    try reflexivity.
  cbn. lia.
Defined.

(** ** The keys of the request body *)

Lemma lookupField_loginname k :
  json.foldName k = "LOGINNAME" ->
  json.lookupField requestData.fields k
  = Some (json.mkField "loginname" "LoginName"
            (fun v s => {| requestData.LoginName := s;
                           requestData.Password := requestData.Password v |})).
Proof.
  intros Hk. unfold json.lookupField, requestData.fields. cbn [find json.name].
  destruct (String.eqb_spec "loginname" k) as [_|_]; [reflexivity|].
  destruct (String.eqb_spec "password" k) as [<-|_]; [discriminate Hk|].
  rewrite Hk. reflexivity.
Qed.

Lemma lookupField_password k :
  json.foldName k = "PASSWORD" ->
  json.lookupField requestData.fields k
  = Some (json.mkField "password" "Password"
            (fun v s => {| requestData.LoginName := requestData.LoginName v;
                           requestData.Password := s |})).
Proof.
  intros Hk. unfold json.lookupField, requestData.fields. cbn [find json.name].
  destruct (String.eqb_spec "loginname" k) as [<-|_]; [discriminate Hk|].
  destruct (String.eqb_spec "password" k) as [_|_]; [reflexivity|].
  rewrite Hk. reflexivity.
Qed.

(** X7. The keys of a body read as JSON are matched to the two fields up
    to case: a key that reads loginname, and one that reads password,
    when letters are folded to upper case, name the fields as the keys
    in lower case do. *)
Theorem keys_matched_up_to_case c k1 k2 l p :
  routing.reader c = routing.JSONDataReader ->
  routing.Request_Body c
  = routing.Structured (json.JObject [(k1, json.JString l); (k2, json.JString p)]) ->
  json.foldName k1 = "LOGINNAME" ->
  json.foldName k2 = "PASSWORD" ->
  decoded c = (pair l p, None).
Proof.
  intros Hr Hb H1 H2. rewrite (decoded_object c _ Hr Hb).
  cbn [json.object]. change (json.fields requestData.shape) with requestData.fields.
  rewrite (lookupField_loginname k1 H1), (lookupField_password k2 H2).
  reflexivity.
Qed.

Lemma keys_matched_up_to_case_witness :
  decoded (request (json.JObject [("LoginName", json.JString "alice");
                                  ("PASSWORD", json.JString "secret")]))
  = (pair "alice" "secret", None).
Proof.
  apply (keys_matched_up_to_case _ "LoginName" "PASSWORD" "alice" "secret");
    reflexivity.
Defined.

Lemma object_app (members more : list (string * json.JSON)) : forall v saved,
  json.object requestData.shape (members ++ more) v saved
  = json.object requestData.shape more
      (fst (json.object requestData.shape members v saved))
      (snd (json.object requestData.shape members v saved)).
Proof.
  induction members as [|[k j] ms IH]; intros v saved; [reflexivity|].
  cbn [app json.object].
  destruct (json.lookupField (json.fields requestData.shape) k) as [f|]; [|apply IH].
  destruct j; apply IH.
Qed.

(** X8. When a body read as JSON names a field more than once, the last
    member wins: a login name given last replaces whatever the members
    before it stored, and the password they stored is kept. *)
Theorem last_member_wins c members l :
  routing.reader c = routing.JSONDataReader ->
  routing.Request_Body c
  = routing.Structured (json.JObject (members ++ [("loginname", json.JString l)])) ->
  (forall k j, (k, j) ∈ members -> named k <> None -> textual j) ->
  exists before,
    (forall c',
       routing.reader c' = routing.JSONDataReader ->
       routing.Request_Body c' = routing.Structured (json.JObject members) ->
       decoded c' = (before, None))
    /\ decoded c
       = ({| requestData.LoginName := l;
             requestData.Password := requestData.Password before |}, None).
Proof.
  intros Hr Hb Ht.
  pose proof (object_textual_no_error members (pair "" "") None Ht) as Hn.
  destruct (json.object requestData.shape members (pair "" "") None) as [before e0] eqn:E.
  cbn [snd] in Hn. subst e0. exists before. split.
  - intros c' Hr' Hb'. rewrite (decoded_object c' _ Hr' Hb'). exact E.
  - rewrite (decoded_object c _ Hr Hb), object_app, E. reflexivity.
Qed.

Lemma last_member_wins_witness :
  decoded (request (json.JObject [("loginname", json.JString "mallory");
                                  ("password", json.JString "secret");
                                  ("loginname", json.JString "alice")]))
  = (pair "alice" "secret", None).
Proof.
  destruct (last_member_wins
              (request (json.JObject [("loginname", json.JString "mallory");
                                      ("password", json.JString "secret");
                                      ("loginname", json.JString "alice")]))
              [("loginname", json.JString "mallory"); ("password", json.JString "secret")]
              "alice") as (before & H1 & H2).
  - reflexivity.
  - reflexivity.
  - intros k j Hin _. unfold textual. right.
    apply elem_of_cons in Hin as [Hin|Hin]; [inversion Hin; eauto|].
    apply elem_of_cons in Hin as [Hin|Hin]; [inversion Hin; eauto|].
    apply elem_of_nil in Hin. contradiction.
  - pose proof (H1 (request (json.JObject [("loginname", json.JString "mallory");
                                           ("password", json.JString "secret")]))
                  eq_refl eq_refl)
      as Hbefore.
    change (decoded _) with (pair "mallory" "secret", @None error) in Hbefore.
    inversion Hbefore; subst. exact H2.
Defined.

(** * Properties of the process *)

Lemma argLoop_run args : forall remaining i t,
  server.argLoop args remaining i t
  = (server.Done tt,
     t ++ map (fun j => server.Printf "arg[%d] = %s\n"
                          [server.AInt (Z.of_nat j); server.AString (server.Arg_ args j)])
              (seq i remaining)).
Proof.
  induction remaining as [|k IH]; intros i t.
  - cbn. now rewrite app_nil_r.
  - cbn [server.argLoop]. unfold mbind, server.P_bind, server.event.
    rewrite IH. cbn [seq map]. now rewrite <- app_assoc.
Qed.

Ltac steps :=
  unfold mbind, server.P_bind, server.event, server.os_Exit, mret, server.P_ret;
  cbn -[server.address].

(** The run of [main], by the results of the calls it makes. *)
Lemma main_run h :
  server.run h =
  match server.Load h (server.AppConfig h) with
  | inl err =>
    (server.Exit (-1),
     opening h
     ++ [server.Log (log.Errorf mainLogger
                       "failed to load application configuration: %s" [Some err])])
  | inr cfg =>
    match server.MustOpen h "mysql" (server.DSN cfg) with
    | Some err =>
      (server.Exit (-1),
       opening h
       ++ [server.Open "mysql" (server.DSN cfg);
           server.Log (log.Errorf mainLogger "failed to connect database: %s" [Some err])])
    | None =>
      match server.ListenAndServe h (server.address (server.ServerPort cfg)) with
      | Some err =>
        if decide (err = server.ErrServerClosed)
        then (server.Done tt, opening h ++ serving_up cfg ++ closing h)
        else (server.Exit (-1),
              opening h ++ serving_up cfg ++ [server.Log (log_Error mainLogger err)])
      | None => (server.Done tt, opening h ++ serving_up cfg ++ closing h)
      end
    end
  end.
Proof.
  change (server.run h) with (server.steps h []). unfold server.steps.
  unfold mbind at 1, server.P_bind at 1. unfold server.event at 1. cbn [app].
  unfold mbind at 1, server.P_bind at 1. rewrite argLoop_run.
  fold mainLogger.
  unfold opening, argLines, closing, serving_up.
  destruct (server.Load h (server.AppConfig h)) as [err|cfg].
  - steps. now rewrite <- !app_assoc.
  - destruct (server.MustOpen h "mysql" (server.DSN cfg)) as [err|].
    + steps. now rewrite <- !app_assoc.
    + unfold server.defer.
      destruct (server.ListenAndServe h (server.address (server.ServerPort cfg)))
        as [err|] eqn:L.
      * destruct (decide (err = server.ErrServerClosed)) as [E|E].
        -- steps. destruct (server.Close h); cbn; now rewrite <- !app_assoc.
        -- steps. now rewrite <- !app_assoc.
      * steps. destruct (server.Close h); cbn; now rewrite <- !app_assoc.
Qed.

Lemma opening_events h e :
  e ∈ opening h ->
  (exists f a, e = server.Printf f a) \/ (exists l, e = server.Log l)
  \/ (exists p, e = server.ConfigLoad p).
Proof.
  unfold opening, argLines. intros H.
  apply elem_of_app in H as [H|H].
  - left. apply elem_of_cons in H as [->|H]; [eauto|].
    apply list_elem_of_fmap in H as (i & -> & _). eauto.
  - right. apply elem_of_cons in H as [->|H]; [eauto|].
    apply list_elem_of_singleton in H as ->. eauto.
Qed.

Ltac not_in_opening H :=
  apply opening_events in H as [(? & ? & H)|[(? & H)|(? & H)]]; discriminate H.

Ltac absent :=
  let H := fresh "H" in
  intros H;
  repeat (apply elem_of_app in H as [H|H]; [try not_in_opening H|]);
  try not_in_opening H;
  repeat (apply elem_of_cons in H as [H|H]; [try discriminate H|]);
  try (apply elem_of_nil in H; contradiction).

(** X9. When the configuration cannot be loaded, the process logs the
    failure and ends by [os.Exit(-1)] before it opens the database or
    serves: no database is opened, nothing listens and nothing is
    closed. *)
Theorem config_failure_exits_early h err :
  server.Load h (server.AppConfig h) = inl err ->
  fst (server.run h) = server.Exit (-1)
  /\ last (snd (server.run h))
     = Some (server.Log (log.Errorf mainLogger
                           "failed to load application configuration: %s" [Some err]))
  /\ (forall d s, server.Open d s ∉ snd (server.run h))
  /\ (forall a, server.Listen a ∉ snd (server.run h))
  /\ server.CloseDB ∉ snd (server.run h).
Proof.
  intros HL. rewrite main_run, HL. cbn [fst snd].
  split; [reflexivity|]. split; [apply last_snoc|].
  split; [intros d s; absent|]. split; [intros a; absent | absent].
Qed.

Lemma config_failure_exits_early_witness :
  fst (server.run bare) = server.Exit (-1)
  /\ server.CloseDB ∉ snd (server.run bare).
Proof.
  destruct (config_failure_exits_early bare
              (errorString "open ./missing.yml: no such file or directory") eq_refl)
    as (H1 & _ & _ & _ & H5).
  split; [exact H1 | exact H5].
Defined.

(** X10. When the database cannot be opened, the process logs the
    failure and ends by [os.Exit(-1)]: the shutdown watcher is not
    started, nothing listens, and no close is attempted. *)
Theorem open_failure_exits_before_listening h cfg err :
  server.Load h (server.AppConfig h) = inr cfg ->
  server.MustOpen h "mysql" (server.DSN cfg) = Some err ->
  fst (server.run h) = server.Exit (-1)
  /\ last (snd (server.run h))
     = Some (server.Log (log.Errorf mainLogger "failed to connect database: %s" [Some err]))
  /\ (forall a n, server.GoGracefulShutdown a n ∉ snd (server.run h))
  /\ (forall a, server.Listen a ∉ snd (server.run h))
  /\ server.CloseDB ∉ snd (server.run h).
Proof.
  intros HL HO. rewrite main_run, HL, HO. cbn [fst snd].
  split; [reflexivity|]. split.
  { change [server.Open "mysql" (server.DSN cfg);
            server.Log (log.Errorf mainLogger "failed to connect database: %s" [Some err])]
      with ([server.Open "mysql" (server.DSN cfg)]
            ++ [server.Log (log.Errorf mainLogger "failed to connect database: %s" [Some err])]).
    rewrite app_assoc. apply last_snoc. }
  split; [intros a n; absent|]. split; [intros a; absent | absent].
Qed.

Lemma open_failure_exits_before_listening_witness :
  fst (server.run dry) = server.Exit (-1)
  /\ (forall a, server.Listen a ∉ snd (server.run dry)).
Proof.
  destruct (open_failure_exits_before_listening dry
              {| server.DSN := "root@tcp(127.0.0.1:3306)/fk"; server.ServerPort := 8080 |}
              refused eq_refl eq_refl)
    as (H1 & _ & _ & H4 & _).
  split; [exact H1 | exact H4].
Defined.

(** X11. When serving fails with an error other than the one of a closed
    server, the process logs it and ends by [os.Exit(-1)]; the deferred
    close does not run, so the database that was opened is not closed. *)
Theorem listen_failure_skips_close h cfg err :
  server.Load h (server.AppConfig h) = inr cfg ->
  server.MustOpen h "mysql" (server.DSN cfg) = None ->
  server.ListenAndServe h (server.address (server.ServerPort cfg)) = Some err ->
  err <> server.ErrServerClosed ->
  fst (server.run h) = server.Exit (-1)
  /\ server.Open "mysql" (server.DSN cfg) ∈ snd (server.run h)
  /\ (server.CloseDB ∉ snd (server.run h))
  /\ last (snd (server.run h)) = Some (server.Log (log_Error mainLogger err)).
Proof.
  intros HL HO HS HE. rewrite main_run, HL, HO, HS.
  destruct (decide (err = server.ErrServerClosed)) as [E|_]; [contradiction|].
  cbn [fst snd]. split; [reflexivity|]. split; [|split].
  - apply elem_of_app. right. left.
  - unfold serving_up. absent.
  - rewrite !app_assoc. apply last_snoc.
Qed.

Lemma listen_failure_skips_close_witness :
  fst (server.run taken) = server.Exit (-1)
  /\ server.Open "mysql" "root@tcp(127.0.0.1:3306)/fk" ∈ snd (server.run taken)
  /\ server.CloseDB ∉ snd (server.run taken).
Proof.
  destruct (listen_failure_skips_close taken
              {| server.DSN := "root@tcp(127.0.0.1:3306)/fk"; server.ServerPort := 8080 |}
              inUse eq_refl eq_refl eq_refl) as (H1 & H2 & H3 & _).
  - discriminate.
  - split; [exact H1|]. split; [exact H2 | exact H3].
Defined.

(** X12. The process ends in one of three ways: [flag.Parse] ends it
    with a code of its own before anything else is done, or [main]
    returns, or it ends by [os.Exit(-1)]. It closes the database exactly
    when [main] returns, and [main] returns exactly when the command
    line was accepted, the configuration loaded, the database opened and
    serving ended with no error or with the error of a closed server.
    The close is the last call then; an error it reports is logged by
    the logger of [main] as the last line, and changes nothing of
    this. *)
Theorem database_closed_iff_returns cl :
  (fst (server.start cl) = server.Done tt
   \/ fst (server.start cl) = server.Exit (-1)
   \/ exists code, cl = server.Rejected code /\ server.start cl = (server.Exit code, []))
  /\ (fst (server.start cl) = server.Done tt <-> server.CloseDB ∈ snd (server.start cl))
  /\ (fst (server.start cl) = server.Done tt <->
      exists h cfg,
        cl = server.Accepted h
        /\ server.Load h (server.AppConfig h) = inr cfg
        /\ server.MustOpen h "mysql" (server.DSN cfg) = None
        /\ (server.ListenAndServe h (server.address (server.ServerPort cfg)) = None
            \/ server.ListenAndServe h (server.address (server.ServerPort cfg))
               = Some server.ErrServerClosed))
  /\ (forall h, cl = server.Accepted h -> fst (server.start cl) = server.Done tt ->
      exists before, snd (server.start cl) = before ++ closing h
                     /\ server.CloseDB ∉ before)
  /\ (forall h e, cl = server.Accepted h -> fst (server.start cl) = server.Done tt ->
      server.Close h = Some e ->
      last (snd (server.start cl)) = Some (server.Log (log_Error mainLogger e)))
  /\ (forall h, cl = server.Accepted h -> fst (server.start cl) = server.Done tt ->
      server.Close h = None ->
      last (snd (server.start cl)) = Some server.CloseDB).
Proof.
  destruct cl as [code|h].
  { cbn. split; [right; right; eauto|]. split; [|split; [|split; [|split]]].
    - split; [intros H; discriminate H | intros H; apply elem_of_nil in H; contradiction].
    - split; [intros H; discriminate H | intros (h & cfg & H & _); discriminate H].
    - intros h H. discriminate H.
    - intros h e H. discriminate H.
    - intros h H. discriminate H. }
  change (server.start (server.Accepted h)) with (server.run h).
  assert (forall P : server.Host -> Prop,
            P h -> forall h', server.Accepted h = server.Accepted h' -> P h') as same.
  { intros P HP h' [= <-]. exact HP. }
  assert (forall cfg,
            (forall h', server.Accepted h = server.Accepted h' ->
               (server.Done tt : server.Step unit) = server.Done tt ->
               exists before,
                 opening h ++ serving_up cfg ++ closing h = before ++ closing h'
                 /\ server.CloseDB ∉ before)
            /\ (forall h' e, server.Accepted h = server.Accepted h' ->
                  (server.Done tt : server.Step unit) = server.Done tt ->
                  server.Close h' = Some e ->
                  last (opening h ++ serving_up cfg ++ closing h)
                  = Some (server.Log (log_Error mainLogger e)))
            /\ (forall h', server.Accepted h = server.Accepted h' ->
                  (server.Done tt : server.Step unit) = server.Done tt ->
                  server.Close h' = None ->
                  last (opening h ++ serving_up cfg ++ closing h) = Some server.CloseDB))
    as closed.
  { intros cfg. split; [|split].
    - intros h' [= <-] _. exists (opening h ++ serving_up cfg).
      split; [now rewrite <- app_assoc|]. unfold serving_up. absent.
    - intros h' e [= <-] _ HC. unfold closing. rewrite HC.
      change [server.CloseDB; server.Log (log_Error mainLogger e)]
        with ([server.CloseDB] ++ [server.Log (log_Error mainLogger e)]).
      rewrite !app_assoc. apply last_snoc.
    - intros h' [= <-] _ HC. unfold closing. rewrite HC.
      rewrite !app_assoc. apply last_snoc. }
  rewrite main_run.
  destruct (server.Load h (server.AppConfig h)) as [err|cfg] eqn:HL.
  { cbn [fst snd]. split; [right; now left|]. split; [|split; [|split; [|split]]].
    - split; [intros H; discriminate H | absent].
    - split; [intros H; discriminate H|].
      intros (h' & cfg & [= <-] & H & _). rewrite HL in H. discriminate H.
    - intros h' _ H. discriminate H.
    - intros h' e _ H. discriminate H.
    - intros h' _ H. discriminate H. }
  destruct (server.MustOpen h "mysql" (server.DSN cfg)) as [err|] eqn:HO.
  { cbn [fst snd]. split; [right; now left|]. split; [|split; [|split; [|split]]].
    - split; [intros H; discriminate H | absent].
    - split; [intros H; discriminate H|].
      intros (h' & cfg' & [= <-] & H & H' & _). rewrite HL in H. inversion H; subst.
      rewrite HO in H'. discriminate H'.
    - intros h' _ H. discriminate H.
    - intros h' e _ H. discriminate H.
    - intros h' _ H. discriminate H. }
  assert (server.CloseDB ∈ opening h ++ serving_up cfg ++ closing h) as Hin.
  { apply elem_of_app. right. apply elem_of_app. right. left. }
  destruct (closed cfg) as (C1 & C2 & C3).
  destruct (server.ListenAndServe h (server.address (server.ServerPort cfg)))
    as [err|] eqn:HS.
  - destruct (decide (err = server.ErrServerClosed)) as [->|E]; cbn [fst snd].
    + split; [now left|]. split; [tauto|]. split; [|split; [|split]]; try assumption.
      split; [|reflexivity]. intros _. exists h, cfg. tauto.
    + split; [right; now left|]. split; [|split; [|split; [|split]]].
      * split; [intros H; discriminate H | unfold serving_up; absent].
      * split; [intros H; discriminate H|].
        intros (h' & cfg' & [= <-] & H & _ & [H'|H']); rewrite HL in H; inversion H; subst;
          rewrite HS in H'; [discriminate H' | inversion H'; contradiction].
      * intros h' _ H. discriminate H.
      * intros h' e _ H. discriminate H.
      * intros h' _ H. discriminate H.
  - cbn [fst snd]. split; [now left|]. split; [tauto|].
    split; [|split; [|split]]; try assumption.
    split; [|reflexivity]. intros _. exists h, cfg. tauto.
Qed.

(** A host whose database reports an error when it is closed. *)
Lemma database_closed_iff_returns_witness :
  fst (server.start (server.Accepted sticky)) = server.Done tt
  /\ last (snd (server.start (server.Accepted sticky)))
     = Some (server.Log (log_Error mainLogger busyClose)).
Proof.
  destruct (database_closed_iff_returns (server.Accepted sticky))
    as (_ & _ & H3 & _ & H5 & _).
  assert (fst (server.start (server.Accepted sticky)) = server.Done tt) as Hret.
  { apply H3. exists sticky. eexists. split; [reflexivity|]. split; [reflexivity|].
    split; [reflexivity|]. right. reflexivity. }
  split; [exact Hret|]. apply (H5 sticky busyClose); [reflexivity | exact Hret | reflexivity].
Defined.

Lemma run_opening h : exists rest, snd (server.run h) = opening h ++ rest.
Proof.
  rewrite main_run.
  destruct (server.Load h (server.AppConfig h)) as [err|cfg]; [eexists; reflexivity|].
  destruct (server.MustOpen h "mysql" (server.DSN cfg)) as [err|]; [eexists; reflexivity|].
  destruct (server.ListenAndServe h (server.address (server.ServerPort cfg))) as [err|];
    [destruct (decide (err = server.ErrServerClosed))|]; eexists; reflexivity.
Qed.

(** X13. The process serves only on the port of the configuration it
    loaded, and only after it has opened the database that configuration
    names: whenever something listens, the configuration was loaded, the
    open succeeded and came first, and the address is the colon followed
    by the port. *)
Theorem listens_after_open_on_configured_port h a :
  server.Listen a ∈ snd (server.run h) ->
  exists cfg before after,
    server.Load h (server.AppConfig h) = inr cfg
    /\ server.MustOpen h "mysql" (server.DSN cfg) = None
    /\ a = server.address (server.ServerPort cfg)
    /\ snd (server.run h) = before ++ server.Listen a :: after
    /\ server.Open "mysql" (server.DSN cfg) ∈ before
    /\ (forall a', server.Listen a' ∉ before).
Proof.
  rewrite main_run.
  destruct (server.Load h (server.AppConfig h)) as [err|cfg] eqn:HL.
  { cbn [snd]. absent. }
  destruct (server.MustOpen h "mysql" (server.DSN cfg)) as [err|] eqn:HO.
  { cbn [snd]. absent. }
  intros Hin. exists cfg.
  exists (opening h
          ++ [server.Open "mysql" (server.DSN cfg);
              server.GoGracefulShutdown (server.address (server.ServerPort cfg)) 10;
              server.Infof mainLogger "server %v is running at %v"
                [server.AString server.Version;
                 server.AString (server.address (server.ServerPort cfg))]]).
  assert (a = server.address (server.ServerPort cfg)) as ->.
  { destruct (server.ListenAndServe h (server.address (server.ServerPort cfg))) as [err|];
      [destruct (decide (err = server.ErrServerClosed))|];
      cbn [snd] in Hin; unfold serving_up, closing in Hin;
      (apply elem_of_app in Hin as [Hin|Hin]; [not_in_opening Hin|]);
      repeat (apply elem_of_app in Hin as [Hin|Hin]);
      repeat (apply elem_of_cons in Hin as [Hin|Hin]; [try discriminate Hin|]);
      try (inversion Hin; reflexivity);
      try (apply elem_of_nil in Hin; contradiction);
      destruct (server.Close h);
      repeat (apply elem_of_cons in Hin as [Hin|Hin]; [try discriminate Hin|]);
      apply elem_of_nil in Hin; contradiction. }
  destruct (server.ListenAndServe h (server.address (server.ServerPort cfg))) as [err|];
    [destruct (decide (err = server.ErrServerClosed))|];
    eexists; (split; [reflexivity|]); (split; [exact HO|]); (split; [reflexivity|]);
    (split; [cbn [snd]; unfold serving_up; rewrite <- app_assoc; reflexivity|]);
    (split; [apply elem_of_app; right; left | intros a'; absent]).
Qed.

Lemma listens_after_open_on_configured_port_witness :
  exists before after,
    snd (server.run calm) = before ++ server.Listen ":8080" :: after
    /\ server.Open "mysql" "root@tcp(127.0.0.1:3306)/fk" ∈ before.
Proof.
  destruct (listens_after_open_on_configured_port calm ":8080")
    as (cfg & before & after & H1 & _ & _ & H4 & H5 & _).
  - rewrite main_run. cbn. repeat (try (left; reflexivity); right).
  - inversion H1; subst. exists before, after. split; [exact H4 | exact H5].
Defined.

(** X14. The process prints its arguments first and in order: a line
    with all of them and their number, then one line for each argument
    with its index and the argument itself, never the empty string that
    stands for a missing one; the first line of the log comes after
    them. *)
Theorem arguments_printed_in_order h :
  snd (server.run h) !! 0%nat
  = Some (server.Printf "args=%s, num=%d\n"
            [server.AStrings (server.Args h);
             server.AInt (Z.of_nat (length (server.Args h)))])
  /\ (forall i a,
        server.Args h !! i = Some a ->
        snd (server.run h) !! S i
        = Some (server.Printf "arg[%d] = %s\n" [server.AInt (Z.of_nat i); server.AString a]))
  /\ snd (server.run h) !! S (length (server.Args h))
     = Some (server.Log (log.Info mainLogger "server init...")).
Proof.
  destruct (run_opening h) as [rest ->].
  unfold opening, argLines. rewrite <- !app_assoc. cbn [app].
  assert (forall (x : server.Event) l n, (x :: l) !! S n = l !! n) as Hc by reflexivity.
  split; [reflexivity|]. split.
  - intros i a Ha. rewrite Hc.
    pose proof (lookup_lt_Some _ _ _ Ha) as Hlt.
    rewrite lookup_app_l by (rewrite length_map, length_seq; exact Hlt).
    rewrite list_lookup_fmap, lookup_seq_lt by exact Hlt.
    cbn. unfold server.Arg_. now rewrite Ha.
  - rewrite Hc.
    rewrite lookup_app_r by (rewrite length_map, length_seq; reflexivity).
    rewrite length_map, length_seq, Nat.sub_diag. reflexivity.
Qed.
